(** * Cook scheduler CLI: the [submit] subcommand

    A shallow embedding of [cli/cook/subcommands/submit.py]: assembly of the
    job batch from the configuration, the command line and standard input,
    and the federated submission loop over the configured clusters.

    Python values are embedded as a tagged tree type, dictionaries as finite
    maps with string keys, exceptions as an error result, and the effects of
    the program (requests sent, messages printed, metrics, identifiers drawn)
    as a state that is threaded through the calls.  The calls to [logging]
    are left out: they have no part in the control flow. *)

From stdpp Require Import gmap strings list fin_maps pretty.
From Stdlib Require Import ZArith QArith Ascii.

#[local] Open Scope Z_scope.
#[local] Open Scope stdpp_scope.

(** ** Values *)

(** The loosely typed values of the program: what [json.loads] returns, what
    the configuration mapping holds and what is posted to the scheduler.
    Fractional numbers are carried as rationals. *)
#[warnings="-register-all"]
Inductive json :=
| JNull
| JBool (b : bool)
| JInt (z : Z)
| JFloat (q : Q)
| JStr (s : string)
| JList (l : list json)
| JDict (d : gmap string json).

(** Python's truth value of an object, as tested by [if x:] and [not x]. *)
Definition truthy (v : json) : bool :=
  match v with
  | JNull => false
  | JBool b => b
  | JInt z => negb (z =? 0)
  | JFloat q => negb (Qnum q =? 0)
  | JStr s => negb (String.eqb s "")
  | JList l => match l with [] => false | _ => true end
  | JDict d => negb (bool_decide (d = ∅))
  end.

Definition is_dict (v : json) : bool :=
  match v with JDict _ => true | _ => false end.

(** [d.get(k)]: the value, or [None] when the key is absent. *)
Definition dict_get (k : string) (d : gmap string json) : json :=
  default JNull (d !! k).

(** [d.pop(k, dflt)]: the value (or the default) and the dictionary without
    the key. *)
Definition dict_pop (k : string) (dflt : json) (d : gmap string json)
  : json * gmap string json :=
  (default dflt (d !! k), delete k d).

(** ** Strings

    A string is a sequence of code points below 256. *)
Module PyStr.

(** [str.isspace] on one code point. *)
Definition isspace (c : ascii) : bool :=
  match c with
  | "009" | "010" | "011" | "012" | "013"
  | "028" | "029" | "030" | "031" | " " | "133" | "160" => true
  | _ => false
  end%char.

(** [s.lstrip(c)], [s.rstrip(c)], [s.strip(c)] for a one-character set:
    every leading (trailing) occurrence of [c] is removed. *)
Fixpoint lstrip (c : ascii) (s : string) : string :=
  match s with
  | String a s' => if Strings.Ascii.eqb a c then lstrip c s' else s
  | EmptyString => EmptyString
  end.

Definition rstrip (c : ascii) (s : string) : string :=
  String.rev (lstrip c (String.rev s)).

Definition strip (c : ascii) (s : string) : string :=
  rstrip c (lstrip c s).

(** [s.find(sub)]: index of the first occurrence. [sub in s] is
    [is_Some (find sub s)], and [s.index(sub)] is that index. *)
Fixpoint find (sub s : string) : option nat :=
  if String.prefix sub s then Some 0%nat
  else match s with
       | EmptyString => None
       | String _ s' => S <$> find sub s'
       end.

Definition contains (sub s : string) : bool :=
  match find sub s with Some _ => true | None => false end.

(** [s[:n]] *)
Fixpoint take (n : nat) (s : string) : string :=
  match n, s with
  | S n', String a s' => String a (take n' s')
  | _, _ => EmptyString
  end.

(** [s.split()]: maximal runs of non-whitespace characters. [cur] holds
    the characters of the current token, last one first. *)
Definition flush (cur : string) : list string :=
  match cur with EmptyString => [] | _ => [String.rev cur] end.

Fixpoint split_go (cur s : string) : list string :=
  match s with
  | EmptyString => flush cur
  | String a s' =>
      if isspace a then flush cur ++ split_go EmptyString s'
      else split_go (String a cur) s'
  end.

Definition split (s : string) : list string := split_go EmptyString s.

(** [s.split(c, maxsplit=1)]: the parts before and after the first [c];
    [None] stands for the one-element result when [c] does not occur. *)
Fixpoint split_once (c : ascii) (s : string) : option (string * string) :=
  match s with
  | EmptyString => None
  | String a s' =>
      if Strings.Ascii.eqb a c then Some (EmptyString, s')
      else prod_map (String a) id <$> split_once c s'
  end.

(** Vocabulary for the statements: [n] copies of a character, the first
    and the last character of a string. *)
Fixpoint copies (n : nat) (c : ascii) : string :=
  match n with
  | O => EmptyString
  | S n' => String c (copies n' c)
  end.

Definition starts_with (c : ascii) (s : string) : bool :=
  match s with
  | String a _ => Strings.Ascii.eqb a c
  | EmptyString => false
  end.

Definition ends_with (c : ascii) (s : string) : bool :=
  starts_with c (String.rev s).

(** [sub] occurs in [s] at offset [i]. *)
Definition occurs_at (sub s : string) (i : nat) : Prop :=
  ∃ pre post, s = pre +:+ sub +:+ post ∧ String.length pre = i.

(** [sep.join(l)] *)
Definition join (sep : string) (l : list string) : string :=
  String.concat sep l.

End PyStr.

(** ** StructuredMerge *)

(** Modelled from the spec: [deep_merge] is imported by [submit.py] from
    [cook.util], whose source is not among the sources verified.  Following
    section 4.1: two mappings are merged key by key, recursing where both
    values are mappings; in every other case the override's value wins.
    Keys only in the base are kept, keys only in the override are added, and
    the function has no error case. *)
Fixpoint deep_merge (base override : json) {struct base} : json :=
  match base, override with
  | JDict a, JDict b =>
      JDict (union_with (λ x y, Some (deep_merge x y)) a b)
  | _, _ => override
  end.

(** ** Results and exceptions *)

(** The exceptions the program can meet.  [ReadTimeout] and [IOError] come
    from the transport ([requests.exceptions.ReadTimeout] is itself an
    [IOError]; [IOError] here stands for every other one). *)
Inductive exn :=
| Exception (msg : string)
| ValueError (msg : string)
| KeyError (key : string)
| TypeError
| AttributeError
| JSONDecodeError
| ReadTimeout
| IOError.

Inductive res (A : Type) :=
| Ok (a : A)
| Raise (e : exn).
Arguments Ok {A} a.
Arguments Raise {A} e.

#[global] Instance res_ret : MRet res := λ A a, Ok a.
#[global] Instance res_bind : MBind res := λ A B f m,
  match m with Ok a => f a | Raise e => Raise e end.
#[global] Instance res_fmap : FMap res := λ A B f m,
  match m with Ok a => Ok (f a) | Raise e => Raise e end.

(** [k in data] and [data[k]] for a string [k], on whatever
    [response.json()] returned: membership is by key in a mapping, by
    element in a list and by substring in a string; numbers, booleans and
    [None] are not containers.  Only a mapping can be indexed by a string. *)
Definition py_in (k : string) (data : json) : res bool :=
  match data with
  | JDict d => Ok (bool_decide (is_Some (d !! k)))
  | JList l =>
      Ok (existsb (λ v, match v with JStr s => String.eqb s k | _ => false end) l)
  | JStr s => Ok (PyStr.contains k s)
  | _ => Raise TypeError
  end.

Definition py_getitem (k : string) (data : json) : res json :=
  match data with
  | JDict d => match d !! k with Some v => Ok v | None => Raise (KeyError k) end
  | _ => Raise TypeError
  end.

(** ** Collaborators *)

Record cluster := { cluster_name : string; cluster_url : string }.

(** What the transport hands back: the status, the body as text, and what
    [response.json()] gives ([None] when it raises [JSONDecodeError]). *)
Record response := {
  status_code : Z;
  text : string;
  json_body : option json
}.

Record request := {
  req_cluster : cluster;
  req_path : string;
  req_body : json
}.

Inductive outcome :=
| Responded (r : response)
| TimedOut
| Unreachable.

(** Everything the subcommand takes from outside [submit.py]: the transport
    (its answer may depend on the requests made before), the random
    identifiers ([uuid4 n] is the [n]-th one drawn), the user, what is typed
    on standard input ([read_lines] is what [cook.util.read_lines] returns,
    [stdin_read] what [sys.stdin.read] returns), the test of [cook.util] for
    valid UUIDs, the parser and printer of [json], Python's [str], the
    version of the tool and the colours of [cook.colors]. *)
Record Env := {
  http_post : list request → request → outcome;
  uuid4 : nat → string;
  current_user : string;
  is_valid_uuid : string → bool;
  json_loads : string → option json;
  json_dumps : json → string;
  py_str : json → string;
  read_lines : list string;
  stdin_read : string;
  VERSION : string;
  colors_success : string → string;
  colors_failed : string → string;
  colors_reason : string → string;
  colors_bold : string → string
}.

(** ** State *)

Inductive output :=
| Info (text : string) (silent_mode_text : option string)
| Stderr (text : string).

Record World := {
  sent : list request;
  printed : list output;
  counted : list (string * nat);
  drawn : nat
}.

Definition M (A : Type) : Type := World → res A * World.

#[global] Instance M_ret : MRet M := λ A a w, (Ok a, w).
#[global] Instance M_bind : MBind M := λ A B f m w,
  match m w with
  | (Ok a, w') => f a w'
  | (Raise e, w') => (Raise e, w')
  end.

Definition raise {A} (e : exn) : M A := λ w, (Raise e, w).

Definition lift {A} (r : res A) : M A := λ w, (r, w).

(** [try: body except ...]: the handler says which exceptions it takes. *)
Definition try_except {A} (body : M A) (handler : exn → option (M A)) : M A :=
  λ w, match body w with
       | (Raise e, w') =>
           match handler e with
           | Some h => h w'
           | None => (Raise e, w')
           end
       | r => r
       end.

Definition print_info (text : string) (silent : option string) : M () :=
  λ w, (Ok (), {| sent := sent w; printed := printed w ++ [Info text silent];
                  counted := counted w; drawn := drawn w |}).

Definition print_stderr (text : string) : M () :=
  λ w, (Ok (), {| sent := sent w; printed := printed w ++ [Stderr text];
                  counted := counted w; drawn := drawn w |}).

Definition metrics_inc (name : string) (n : nat) : M () :=
  λ w, (Ok (), {| sent := sent w; printed := printed w;
                  counted := counted w ++ [(name, n)]; drawn := drawn w |}).

Definition nl : string := String "010"%char EmptyString.

(** A computation that makes no request. *)
Definition keeps_sent {A} (m : M A) : Prop := ∀ w, sent (m w).2 = sent w.

(** [shlex.quote]: the empty string becomes two quotes, a string of safe
    characters is left alone, any other is wrapped in single quotes with
    each single quote inside written as a quoted double-quoted quote. *)
Definition shlex_safe (c : ascii) : bool :=
  let n := nat_of_ascii c in
  ((48 <=? n) && (n <=? 57) || (65 <=? n) && (n <=? 90)
   || (97 <=? n) && (n <=? 122))%nat
  || match c with
     | "_" | "@" | "%" | "+" | "=" | ":" | "," | "." | "/" | "-" => true
     | _ => false
     end%char.

Fixpoint shlex_escape (s : string) : string :=
  match s with
  | EmptyString => EmptyString
  | String a s' =>
      if Strings.Ascii.eqb a "'"%char
      then String "'" (String "034" (String "'" (String "034"
             (String "'" (shlex_escape s')))))
      else String a (shlex_escape s')
  end.

Definition shlex_quote (s : string) : string :=
  match s with
  | EmptyString => "''"
  | _ => if forallb shlex_safe (String.list_ascii_of_string s) then s
         else "'" +:+ shlex_escape s +:+ "'"
  end.

(** Modelled from the spec: [guard_no_cluster] comes from [cook.util],
    whose source is not among the sources verified.  Section 4.4 takes the list of clusters to be non-empty:
    the guard raises on the empty list and does nothing otherwise. *)
Definition guard_no_cluster (clusters : list cluster) : M () :=
  match clusters with
  | [] => raise (Exception "You must specify at least one cluster.")
  | _ => mret ()
  end.

Section Submit.
Context (E : Env).

(** [str(uuid.uuid4())] *)
Definition fresh_uuid : M string :=
  λ w, (Ok (uuid4 E (drawn w)),
        {| sent := sent w; printed := printed w;
           counted := counted w; drawn := S (drawn w) |}).

(** [http.post(cluster, path, body)]: one transport call, recorded. *)
Definition post (c : cluster) (path : string) (body : json) : M response :=
  λ w, let rq := {| req_cluster := c; req_path := path; req_body := body |} in
       let w' := {| sent := sent w ++ [rq]; printed := printed w;
                    counted := counted w; drawn := drawn w |} in
       match http_post E (sent w) rq with
       | Responded r => (Ok r, w')
       | TimedOut => (Raise ReadTimeout, w')
       | Unreachable => (Raise IOError, w')
       end.

(** ['%s' % v] and [f'{v}'] *)
Definition fmt (v : json) : string :=
  match v with JStr s => s | _ => py_str E v end.

(** *** [submit_succeeded_message], [submit_failed_message] *)

Definition submit_succeeded_message (name : string) (uuids : list string)
  : string :=
  match uuids with
  | [u] => "Job submission " +:+ colors_success E "succeeded" +:+ " on "
           +:+ name +:+ ". Your job UUID is:" +:+ nl +:+ u
  | _ => "Job submission " +:+ colors_success E "succeeded" +:+ " on "
         +:+ name +:+ ". Your job UUIDs are:" +:+ nl +:+ PyStr.join nl uuids
  end.

Definition submit_failed_message (name reason : string) : string :=
  "Job submission " +:+ colors_failed E "failed" +:+ " on " +:+ name +:+ ":"
  +:+ nl +:+ colors_reason E reason.

(** *** [print_submit_result] *)

(** Lines 58 to 62: the job identifiers read off a 201 body. *)
Definition extract_uuids (body : string) : list string :=
  let text := PyStr.strip "034"%char body in
  let text := match PyStr.find " submitted groups" text with
              | Some group_index => PyStr.take group_index text
              | None => text
              end in
  filter (λ p, is_valid_uuid E p) (PyStr.split text).

(** The computation as C4 words it, with a single layer of quotes
    trimmed: at most one quote character off each end. *)
Definition trim_one_layer (s : string) : string :=
  let s := match s with
           | String a s' => if Strings.Ascii.eqb a "034" then s' else s
           | EmptyString => s
           end in
  String.rev
    match String.rev s with
    | String a s' => if Strings.Ascii.eqb a "034" then s' else String.rev s
    | EmptyString => EmptyString
    end.

Definition extract_uuids_one_layer (body : string) : list string :=
  let text := trim_one_layer body in
  let text := match PyStr.find " submitted groups" text with
              | Some group_index => PyStr.take group_index text
              | None => text
              end in
  filter (λ p, is_valid_uuid E p) (PyStr.split text).

(** Lines 66 to 74: the reason of a failed submission. *)
Definition failure_reason (resp : response) : res string :=
  match json_body resp with
  | None => Ok (text resp +:+ nl)
  | Some data =>
      has_errors ← py_in "errors" data;
      if has_errors : bool then
        json_dumps E <$> py_getitem "errors" data
      else
        has_error ← py_in "error" data;
        if has_error : bool then fmt <$> py_getitem "error" data
        else Ok (json_dumps E data)
  end.

Definition print_submit_result (c : cluster) (resp : response) : M () :=
  let name := cluster_name c in
  if status_code resp =? 201 then
    let uuids := extract_uuids (text resp) in
    print_info (submit_succeeded_message name uuids)
               (Some (PyStr.join nl uuids))
  else
    reason ← lift (failure_reason resp);
    print_info (submit_failed_message name reason) None.

(** *** [submit_federated] *)

Definition request_body (jobs : list json) (group : json) : json :=
  let json_body : gmap string json := {[ "jobs" := JList jobs ]} in
  JDict (if truthy group then <[ "groups" := JList [group] ]> json_body
         else json_body).

(** One turn of the loop: [Some code] when the turn returns [code],
    [None] when the loop goes on. *)
Definition attempt (jobs : list json) (group : json) (c : cluster)
  : M (option Z) :=
  let name := cluster_name c in
  let url := cluster_url c in
  try_except
    (print_info ("Attempting to submit on " +:+ colors_bold E name
                 +:+ " cluster...") None;;
     resp ← post c "rawscheduler" (request_body jobs group);
     print_submit_result c resp;;
     if status_code resp =? 201 then
       metrics_inc "command.submit.jobs" (length jobs);;
       mret (Some 0)
     else mret None)
    (λ e, match e with
          | ReadTimeout =>
              Some (print_info
                      (colors_failed E
                         ("Encountered read timeout with " +:+ name +:+ " ("
                          +:+ url +:+ "). Your submission may have completed."))
                      None;;
                    mret (Some 1))
          | IOError =>
              Some (let reason := "Cannot connect to " +:+ name +:+ " ("
                                  +:+ url +:+ ")" in
                    print_info (submit_failed_message name reason +:+ nl) None;;
                    mret None)
          | _ => None
          end).

Fixpoint federated_loop (jobs : list json) (group : json)
  (clusters : list cluster) : M (option Z) :=
  match clusters with
  | [] => mret None
  | c :: rest =>
      r ← attempt jobs group c;
      match r with
      | Some code => mret (Some code)
      | None => federated_loop jobs group rest
      end
  end.

Definition all_failed : exn :=
  Exception (colors_failed E
               "Job submission failed on all of your configured clusters.").

Definition submit_federated (clusters : list cluster) (jobs : list json)
  (group : json) : M Z :=
  r ← federated_loop jobs group clusters;
  match r with
  | Some code => mret code
  | None => raise all_failed
  end.

(** *** Command resolution *)

(** [read_lines()] of [cook.util] reads standard input; what it returns
    is [read_lines E]. *)
Definition read_commands_from_stdin : M (list string) :=
  print_info
    "Enter the commands, one per line (press Ctrl+D on a blank line to submit)"
    None;;
  let commands := read_lines E in
  if (length commands <? 1)%nat
  then raise (Exception "You must specify at least one command.")
  else mret commands.

Definition read_jobs_from_stdin : M string :=
  print_stderr
    "Enter the raw job(s) JSON (press Ctrl+D on a blank line to submit)";;
  mret (stdin_read E).

(** [command_args] is [None] or the list of tokens left on the command
    line. *)
Definition acquire_commands (command_args : option (list string))
  : M (list string) :=
  match command_args with
  | Some ((first :: rest) as command_args) =>
      if (length command_args =? 1)%nat then mret command_args
      else
        let command_args :=
          if String.eqb first "--" then rest else command_args in
        mret [PyStr.join " " (shlex_quote <$> command_args)]
  | _ => read_commands_from_stdin
  end.

(** *** [parse_raw_job_spec] *)

Definition parse_raw_job_spec (job : json) (r : string) : res (list json) :=
  let body : res (list json) :=
    content ← match json_loads E r with
              | Some c => Ok c
              | None => Raise JSONDecodeError
              end;
    match content with
    | JDict _ => Ok [deep_merge job content]
    | JList l => Ok (deep_merge job <$> l)
    | _ => Raise (ValueError "invalid format for raw job")
    end in
  match body with
  | Raise _ => Raise (ValueError "malformed JSON for raw job")
  | r => r
  end.

(** *** [submit] *)

(** The configuration gives [command] as a list of strings (or nothing)
    and [env] as a list of [KEY=VALUE] strings.  A value that is not true is
    as good as no command.  Any other shape is outside what the argument
    parser produces and stops the model with [TypeError]. *)
Definition as_tokens (v : json) : res (option (list string)) :=
  if truthy v then
    match v with
    | JList l =>
        Some <$> mapM (λ t, match t with JStr s => Ok s | _ => Raise TypeError end) l
    | _ => Raise TypeError
    end
  else Ok None.

(** [dict([e.split('=', maxsplit=1) for e in env])]: an entry without
    [=] has one part only and [dict] refuses it; of two entries with the
    same key the later one stays. *)
Definition env_pair (e : json) : res (string * json) :=
  match e with
  | JStr s =>
      match PyStr.split_once "="%char s with
      | Some (k, v) => Ok (k, JStr v)
      | None => Raise (ValueError "dictionary update sequence element")
      end
  | _ => Raise AttributeError
  end.

Definition env_dict (env : json) : res json :=
  match env with
  | JList l =>
      pairs ← mapM env_pair l;
      Ok (JDict (list_to_map (reverse pairs)))
  | _ => Raise TypeError
  end.

(** Lines 164 to 172: the group and the template that refers to it. *)
Definition resolve_group (job_template : gmap string json)
  : M (json * gmap string json) :=
  match job_template !! "group-name" with
  | Some group_name =>
      job_template ←
        match job_template !! "group" with
        | Some _ => mret job_template
        | None => u ← fresh_uuid; mret (<[ "group" := JStr u ]> job_template)
        end;
      let group : gmap string json :=
        {[ "name" := group_name; "uuid" := dict_get "group" job_template ]} in
      mret (JDict group, delete "group-name" job_template)
  | None => mret (JNull, job_template)
  end.

(** Lines 174 to 189: one job per raw override, or one job per command. *)
Definition build_jobs (raw command_from_command_line : json)
  (job_template : gmap string json) : M (list json) :=
  if truthy raw then
    if truthy command_from_command_line then
      raise (Exception
        "You cannot specify a command at the command line when using --raw/-r.")
    else
      jobs_json ← read_jobs_from_stdin;
      lift (parse_raw_job_spec (JDict job_template) jobs_json)
  else
    command_args ← lift (as_tokens command_from_command_line);
    commands ← acquire_commands command_args;
    if truthy (dict_get "uuid" job_template) && (1 <? length commands)%nat then
      raise (Exception
        "You cannot specify multiple subcommands with a single UUID.")
    else
      job_template ←
        (if truthy (dict_get "env" job_template) then
           env ← lift (env_dict (dict_get "env" job_template));
           mret (<[ "env" := env ]> job_template)
         else mret job_template);
      mret ((λ c, deep_merge (JDict job_template)
                    (JDict {[ "command" := JStr c ]})) <$> commands).

(** Lines 192 to 199: the body of the loop over the jobs. *)
Definition finish_job (command_prefix : json) (job : json) : M json :=
  match job with
  | JDict job =>
      job ← (if truthy (dict_get "uuid" job) then mret job
             else u ← fresh_uuid; mret (<[ "uuid" := JStr u ]> job));
      let job :=
        if truthy (dict_get "name" job) then job
        else <[ "name" := JStr (current_user E +:+ "_job") ]> job in
      job ← (if truthy command_prefix then
               c ← lift (py_getitem "command" (JDict job));
               mret (<[ "command" := JStr (fmt command_prefix +:+ fmt c) ]> job)
             else mret job);
      mret (JDict job)
  | _ => raise AttributeError
  end.

(** Lines 156 to 162: the options that are no job attributes are taken
    out of the configuration, which becomes the job template. *)
Definition take_options (args : gmap string json)
  : res (json * json * json * gmap string json) :=
  let job_template := args in
  let '(raw, job_template) := dict_pop "raw" JNull job_template in
  let '(command_from_command_line, job_template) :=
    dict_pop "command" JNull job_template in
  command_prefix ← py_getitem "command-prefix" (JDict job_template);
  let job_template := delete "command-prefix" job_template in
  let '(application_name, job_template) :=
    dict_pop "application-name" (JStr "cook-scheduler-cli") job_template in
  let '(application_version, job_template) :=
    dict_pop "application-version" (JStr (VERSION E)) job_template in
  let application : gmap string json :=
    {[ "name" := application_name; "version" := application_version ]} in
  let job_template := <[ "application" := JDict application ]> job_template in
  Ok (raw, command_from_command_line, command_prefix, job_template).

(** Lines 156 to 201: the batch and its group ([None] when there is
    none). *)
Definition assemble (args : gmap string json) : M (list json * json) :=
  '(raw, command_from_command_line, command_prefix, job_template) ←
    lift (take_options args);
  '(group, job_template) ← resolve_group job_template;
  jobs ← build_jobs raw command_from_command_line job_template;
  jobs ← mapM (finish_job command_prefix) jobs;
  mret (jobs, group).

Definition submit (clusters : list cluster) (args : gmap string json) : M Z :=
  guard_no_cluster clusters;;
  '(jobs, group) ← assemble args;
  submit_federated clusters jobs group.

(** *** Vocabulary for the statements *)

(** What [json.loads] gave is neither a mapping nor a list, or nothing. *)
Definition malformed (content : option json) : bool :=
  match content with
  | Some (JDict _) | Some (JList _) => false
  | _ => true
  end.

(** The job has no identifier of its own, so that one is drawn for it. *)
Definition lacks_id (job : json) : bool :=
  match job with
  | JDict d => negb (truthy (dict_get "uuid" d))
  | _ => false
  end.

(** The number of identifiers drawn for the jobs in front of the [i]-th. *)
Definition draws_before (jobs : list json) (i : nat) : nat :=
  length (filter (λ job, lacks_id job) (take i jobs)).

(** [job.get('uuid')] *)
Definition job_id (job : json) : json :=
  match job with JDict d => dict_get "uuid" d | _ => JNull end.

(** What the loop over the jobs does to one job [d], giving [d'], when
    [k] identifiers have been drawn before. *)
Definition finished (command_prefix : json) (k : nat)
  (d d' : gmap string json) : Prop :=
  (if truthy (dict_get "uuid" d) then d' !! "uuid" = d !! "uuid"
   else d' !! "uuid" = Some (JStr (uuid4 E k)))
  ∧ (if truthy (dict_get "name" d) then d' !! "name" = d !! "name"
     else d' !! "name" = Some (JStr (current_user E +:+ "_job")))
  ∧ (if truthy command_prefix
     then ∃ c, d !! "command" = Some c
               ∧ d' !! "command" = Some (JStr (fmt command_prefix +:+ fmt c))
     else d' !! "command" = d !! "command")
  ∧ (∀ key, key ≠ "uuid" → key ≠ "name" → key ≠ "command" →
            d' !! key = d !! key).

Definition single_uuid_error : exn :=
  Exception "You cannot specify multiple subcommands with a single UUID.".

Definition raw_job_error : exn := ValueError "malformed JSON for raw job".

(** The request that [submit_federated] makes to a cluster. *)
Definition request_for (jobs : list json) (group : json) (c : cluster)
  : request :=
  {| req_cluster := c; req_path := "rawscheduler";
     req_body := request_body jobs group |}.

(** What the transport answers to the request for [c] when the requests
    for [before] have been made, in that order, after those of [w]. *)
Definition outcome_at (jobs : list json) (group : json) (w : World)
  (before : list cluster) (c : cluster) : outcome :=
  http_post E (sent w ++ (request_for jobs group <$> before))
    (request_for jobs group c).

(** The loop goes on to the next cluster: the cluster could not be
    reached, or it answered with another status than 201 and the reason
    could be read off its answer. *)
Definition passed_over (o : outcome) : bool :=
  match o with
  | Unreachable => true
  | Responded r =>
      negb (status_code r =? 201)
      && match failure_reason r with Ok _ => true | Raise _ => false end
  | TimedOut => false
  end.

Definition timeout_warning (c : cluster) : output :=
  Info (colors_failed E
          ("Encountered read timeout with " +:+ cluster_name c +:+ " ("
           +:+ cluster_url c +:+ "). Your submission may have completed."))
       None.

End Submit.

(** The invariant of section 3, read on a batch and its group ([None]
    when there is none): every job has a non-empty command, no two jobs
    have the same identifier, and every job refers to the group by its
    identifier. *)
Definition batch_invariant (jobs : list json) (group : json) : Prop :=
  (∀ job, job ∈ jobs →
     ∃ d c, job = JDict d ∧ d !! "command" = Some (JStr c) ∧ c ≠ "")
  ∧ NoDup (job_id <$> jobs)
  ∧ (∀ gd, group = JDict gd → ∀ job, job ∈ jobs →
       ∃ d v, job = JDict d ∧ d !! "group" = Some v ∧ gd !! "uuid" = Some v).

(** The ways one turn of the loop of [submit_federated] can end: it goes
    on to the next cluster, returns 0, returns 1, or raises [TypeError]. *)
Inductive turn_end : res (option Z) → Prop :=
| turn_next : turn_end (Ok None)
| turn_created : turn_end (Ok (Some 0))
| turn_timeout : turn_end (Ok (Some 1))
| turn_crash : turn_end (Raise TypeError).

(** A body that [response.json()] decodes but in which no reason can be
    looked up: a number, a boolean, [None], a string with [error] in it, or
    a list with the string [errors] or [error] among its elements. *)
Definition unreadable (data : json) : Prop :=
  match data with
  | JDict _ => False
  | JStr s => ∃ j, PyStr.occurs_at "error" s j
  | JList l => JStr "errors" ∈ l ∨ JStr "error" ∈ l
  | _ => True
  end.

(** The one command that tokens on the command line resolve to. *)
Definition command_of_tokens (t : string) (ts : list string) : string :=
  match ts with
  | [] => t
  | _ => PyStr.join " "
           (shlex_quote <$> (if String.eqb t "--" then ts else t :: ts))
  end.

(** An entry [KEY=VALUE] of the environment, as the command line gives
    it. *)
Definition env_entry (kv : string * string) : json :=
  JStr (kv.1 +:+ String "=" kv.2).

(** The character does not occur in the string. *)
Definition free_of (c : ascii) (s : string) : Prop :=
  Forall (λ a, a ≠ c) (String.list_ascii_of_string s).

(** The commands of an invocation outside raw mode: the one command of
    the tokens, or the lines read when there is no token. *)
Definition resolved_commands (E : Env) (tokens : option (list string))
  : list string :=
  match tokens with
  | Some (t :: ts) => [command_of_tokens t ts]
  | _ => read_lines E
  end.

(** What is put in front of every command. *)
Definition prefix_text (E : Env) (command_prefix : json) : string :=
  if truthy command_prefix then fmt E command_prefix else "".

(** The [application] attribute of every job. *)
Definition application_of (E : Env) (args : gmap string json) : json :=
  JDict {[ "name" := default (JStr "cook-scheduler-cli")
                       (args !! "application-name");
           "version" := default (JStr (VERSION E))
                          (args !! "application-version") ]}.

(** The end of the assembly: the jobs that [build_jobs] made go through
    the loop over the jobs, and the batch is returned with its group. *)
Definition finished_batch (E : Env) (command_prefix group : json)
  (jobs : list json) (w : World) : res (list json * json) * World :=
  let '(r, w') := mapM (finish_job E command_prefix) jobs w in
  (match r with Ok jobs' => Ok (jobs', group) | Raise e => Raise e end, w').

(** ** A concrete environment

    Used to run the definitions on examples. *)
Module Sample.

Definition is_hex (c : ascii) : bool :=
  let n := nat_of_ascii c in
  ((48 <=? n) && (n <=? 57) || (97 <=? n) && (n <=? 102))%nat.

(** Modelled from the spec: [is_valid_uuid] comes from [cook.util], whose
    source is not among the sources verified.  Section 3 speaks of the
    version-4 UUID shape: groups of 8, 4, 4, 4 and 12 lower-case hexadecimal
    digits separated by hyphens, the third group starting with 4 and the
    fourth with 8, 9, a or b. *)
Definition uuid_shaped (s : string) : bool :=
  let cs := String.list_ascii_of_string s in
  (length cs =? 36)%nat
  && forallb (λ '(i, c),
       if (i =? 8)%nat || (i =? 13)%nat || (i =? 18)%nat || (i =? 23)%nat
       then Strings.Ascii.eqb c "-"
       else if (i =? 14)%nat then Strings.Ascii.eqb c "4"
       else if (i =? 19)%nat
            then match c with "8" | "9" | "a" | "b" => true | _ => false end%char
            else is_hex c)
       (imap pair cs).

Definition numbered_uuid (n : nat) : string := "uuid-" +:+ pretty n.

(** A transport that answers the [n]-th request with the [n]-th entry of
    a script, and cannot be reached once the script is used up. *)
Definition scripted (script : list outcome) (history : list request)
  (rq : request) : outcome :=
  default Unreachable (script !! length history).

(** A [json.loads] that knows a handful of payloads. *)
Definition loads (s : string) : option json :=
  if String.eqb s "{}" then Some (JDict ∅)
  else if String.eqb s "[{}, {}]" then Some (JList [JDict ∅; JDict ∅])
  else if String.eqb s "[]" then Some (JList [])
  else if String.eqb s "5" then Some (JInt 5)
  else if String.eqb s "null" then Some JNull
  else None.

Definition env (script : list outcome) (lines : list string)
  (stdin : string) : Env :=
  {| http_post := scripted script;
     uuid4 := numbered_uuid;
     current_user := "alice";
     is_valid_uuid := uuid_shaped;
     json_loads := loads;
     json_dumps := λ _, "<json>";
     py_str := λ _, "<str>";
     read_lines := lines;
     stdin_read := stdin;
     VERSION := "1.0";
     colors_success := id;
     colors_failed := id;
     colors_reason := id;
     colors_bold := id |}.

Definition start : World :=
  {| sent := []; printed := []; counted := []; drawn := 0 |}.

Definition c1 : cluster := {| cluster_name := "one"; cluster_url := "http://one" |}.
Definition c2 : cluster := {| cluster_name := "two"; cluster_url := "http://two" |}.
Definition c3 : cluster := {| cluster_name := "three"; cluster_url := "http://three" |}.

Definition dq : string := String "034" "".

Definition u1 : string := "abc123e4-0000-4000-8000-000000000001".
Definition u2 : string := "def456e7-0000-4000-9000-000000000002".

End Sample.

(** An environment for raw mode: standard input holds the payload
    [{"cpus": 2}]. *)
Module SampleRaw.

Definition payload : string :=
  "{" +:+ Sample.dq +:+ "cpus" +:+ Sample.dq +:+ ": 2}".

Definition loads (s : string) : option json :=
  if String.eqb s payload then Some (JDict {[ "cpus" := JInt 2 ]})
  else Sample.loads s.

Definition env (script : list outcome) : Env :=
  {| http_post := Sample.scripted script;
     uuid4 := Sample.numbered_uuid;
     current_user := "alice";
     is_valid_uuid := Sample.uuid_shaped;
     json_loads := loads;
     json_dumps := λ _, "<json>";
     py_str := λ _, "<str>";
     read_lines := [];
     stdin_read := payload;
     VERSION := "1.0";
     colors_success := id;
     colors_failed := id;
     colors_reason := id;
     colors_bold := id |}.

Definition args : gmap string json :=
  {[ "raw" := JBool true; "command-prefix" := JStr ""; "mem" := JInt 128 ]}.

End SampleRaw.

(** * Properties *)

(** ** StructuredMerge *)

Lemma deep_merge_dict (a b : gmap string json) :
  deep_merge (JDict a) (JDict b)
  = JDict (union_with (λ x y, Some (deep_merge x y)) a b).
Proof. reflexivity. Qed.

Lemma deep_merge_not_both (x y : json) :
  is_dict x && is_dict y = false → deep_merge x y = y.
Proof. destruct x, y; simpl; intros H; done. Qed.

(** The example of section 8:
    merge({a:1,b:{x:1}}, {b:{y:2},c:3}) = {a:1,b:{x:1,y:2},c:3}. *)
Example deep_merge_example :
  deep_merge
    (JDict {[ "a" := JInt 1; "b" := JDict {[ "x" := JInt 1 ]} ]})
    (JDict {[ "b" := JDict {[ "y" := JInt 2 ]}; "c" := JInt 3 ]})
  = JDict {[ "a" := JInt 1;
             "b" := JDict {[ "x" := JInt 1; "y" := JInt 2 ]};
             "c" := JInt 3 ]}.
Proof. vm_compute. reflexivity. Qed.

(** C8. Merging two mappings works key by key: a key whose values are
    mappings on both sides holds the recursive merge of the two; a key of
    the override holds the override's value in every other case, whatever
    the base held there (a list replaces a scalar, a list replaces a list);
    a key only in the base keeps its value; no other key appears.  Outside
    two mappings, and in particular for lists, the override replaces the
    base outright. *)
Theorem deep_merge_keywise (a b : gmap string json) (k : string) :
  (∃ m, deep_merge (JDict a) (JDict b) = JDict m
        ∧ m !! k = match a !! k, b !! k with
                   | Some (JDict x), Some (JDict y) =>
                       Some (deep_merge (JDict x) (JDict y))
                   | _, Some v => Some v
                   | Some u, None => Some u
                   | None, None => None
                   end)
  ∧ (∀ x y, is_dict x && is_dict y = false → deep_merge x y = y)
  ∧ (∀ x l, deep_merge x (JList l) = JList l).
Proof.
  split; [|split].
  - eexists; split; [apply deep_merge_dict|].
    rewrite lookup_union_with.
    destruct (a !! k) as [x|], (b !! k) as [y|]; cbn; [|by destruct x|done..].
    by destruct x, y.
  - apply deep_merge_not_both.
  - intros x l. by destruct x.
Qed.

(** ** Strings *)

Module PyStrFacts.
Import PyStr.

Lemma app_cons a s1 s2 : String a s1 +:+ s2 = String a (s1 +:+ s2).
Proof. reflexivity. Qed.

Lemma app_nil_r s : s +:+ "" = s.
Proof. induction s as [|a s IH]; [done|]. by rewrite app_cons, IH. Qed.

Lemma app_assoc s1 s2 s3 : (s1 +:+ s2) +:+ s3 = s1 +:+ s2 +:+ s3.
Proof. induction s1 as [|a s1 IH]; [done|]. by rewrite !app_cons, IH. Qed.

Lemma app_length s1 s2 :
  String.length (s1 +:+ s2) = (String.length s1 + String.length s2)%nat.
Proof. induction s1 as [|a s1 IH]; [done|]. rewrite app_cons. cbn. by rewrite IH. Qed.

Lemma copies_snoc n c : copies n c +:+ String c "" = String c (copies n c).
Proof. induction n as [|n IH]; [done|]. cbn. by rewrite app_cons, IH. Qed.

Lemma rev_app_spec s1 s2 : String.rev_app s1 s2 = String.rev s1 +:+ s2.
Proof.
  revert s2. induction s1 as [|a s1 IH]; intros s2; [done|].
  unfold String.rev. cbn. rewrite (IH (String a s2)), (IH (String a "")).
  by rewrite app_assoc.
Qed.

Lemma rev_cons a s : String.rev (String a s) = String.rev s +:+ String a "".
Proof. unfold String.rev at 1. cbn. apply rev_app_spec. Qed.

Lemma rev_app s1 s2 : String.rev (s1 +:+ s2) = String.rev s2 +:+ String.rev s1.
Proof.
  induction s1 as [|a s1 IH]; [by rewrite app_nil_r|].
  by rewrite app_cons, !rev_cons, IH, app_assoc.
Qed.

Lemma rev_involutive s : String.rev (String.rev s) = s.
Proof.
  induction s as [|a s IH]; [done|]. by rewrite rev_cons, rev_app, IH.
Qed.

Lemma rev_copies n c : String.rev (copies n c) = copies n c.
Proof.
  induction n as [|n IH]; [done|].
  change (copies (S n) c) with (String c (copies n c)).
  by rewrite rev_cons, IH, copies_snoc.
Qed.

(** [lstrip] removes a run of [c] and leaves a string that does not start
    with [c]. *)
Lemma lstrip_spec c s :
  ∃ n, s = copies n c +:+ lstrip c s ∧ starts_with c (lstrip c s) = false.
Proof.
  induction s as [|a s (n & Hn & Hs)]; [by exists 0%nat|].
  cbn. destruct (Strings.Ascii.eqb a c) eqn:Hac.
  - apply Strings.Ascii.eqb_eq in Hac as ->. exists (S n). cbn.
    by rewrite app_cons, <-Hn.
  - exists 0%nat. by cbn.
Qed.

Lemma rstrip_spec c s :
  ∃ m, s = rstrip c s +:+ copies m c ∧ ends_with c (rstrip c s) = false.
Proof.
  destruct (lstrip_spec c (String.rev s)) as (m & Hm & Hs). exists m. split.
  - rewrite <-(rev_involutive s) at 1. rewrite Hm at 1.
    by rewrite rev_app, rev_copies.
  - unfold ends_with, rstrip. by rewrite rev_involutive.
Qed.

Lemma starts_with_app_copies c r m :
  starts_with c (r +:+ copies m c) = false → starts_with c r = false.
Proof. by destruct r. Qed.

(** [strip] removes every quote at both ends, however many there are. *)
Lemma strip_spec c s :
  ∃ n m, s = copies n c +:+ strip c s +:+ copies m c
         ∧ starts_with c (strip c s) = false
         ∧ ends_with c (strip c s) = false.
Proof.
  destruct (lstrip_spec c s) as (n & Hn & Hs).
  destruct (rstrip_spec c (lstrip c s)) as (m & Hm & He).
  exists n, m. unfold strip. split; [by rewrite <-Hm|]. split; [|done].
  rewrite Hm in Hs. by eapply starts_with_app_copies.
Qed.

Lemma prefix_spec sub s :
  String.prefix sub s = true ↔ ∃ post, s = sub +:+ post.
Proof.
  revert s. induction sub as [|a sub IH]; intros s.
  - destruct s; cbn; naive_solver.
  - destruct s as [|b s]; cbn.
    + split; [done|]. by intros [post ?].
    + destruct (ascii_dec a b) as [->|Hab].
      * rewrite IH. split; intros [post Hp]; exists post.
        -- by rewrite app_cons, <-Hp.
        -- rewrite app_cons in Hp. by simplify_eq.
      * split; [done|]. intros [post Hp]. rewrite app_cons in Hp.
        by simplify_eq.
Qed.

Lemma find_unfold sub s :
  find sub s = if String.prefix sub s then Some 0%nat
               else match s with
                    | EmptyString => None
                    | String _ s' => S <$> find sub s'
                    end.
Proof. by destruct s. Qed.

(** [find] gives the offset of the first occurrence, and [take] the text
    in front of it. *)
Lemma find_Some sub s i :
  find sub s = Some i →
  (∃ post, s = take i s +:+ sub +:+ post)
  ∧ String.length (take i s) = i
  ∧ ∀ j, occurs_at sub s j → (i ≤ j)%nat.
Proof.
  revert i. induction s as [|a s IH]; intros i; rewrite find_unfold.
  - destruct (String.prefix sub "") eqn:Hp; [|done].
    intros [= <-]. apply prefix_spec in Hp as [post Hp].
    split_and!; [by exists post|done|lia].
  - destruct (String.prefix sub (String a s)) eqn:Hp.
    + intros [= <-]. apply prefix_spec in Hp as [post Hp].
      split_and!; [by exists post|done|lia].
    + destruct (find sub s) as [i'|] eqn:Hf; [|done]. intros [= <-].
      destruct (IH i' eq_refl) as ((post & Hpost) & Hlen & Hmin).
      split_and!.
      * exists post. cbn. by rewrite app_cons, <-Hpost.
      * cbn. by rewrite Hlen.
      * intros j (pre & post' & Hs & Hj). destruct pre as [|b pre].
        -- assert (String.prefix sub (String a s) = true); [|congruence].
           apply prefix_spec. by exists post'.
        -- rewrite app_cons in Hs. simplify_eq/=.
           enough (i' ≤ String.length pre)%nat by lia.
           apply Hmin. by exists pre, post'.
Qed.

Lemma find_None sub s : find sub s = None → ∀ j, ¬ occurs_at sub s j.
Proof.
  induction s as [|a s IH]; rewrite find_unfold.
  - destruct (String.prefix sub "") eqn:Hp; [done|]. intros _ j (pre & post & Hs & _).
    destruct pre; [|done].
    assert (String.prefix sub "" = true); [|congruence].
    apply prefix_spec. by exists post.
  - destruct (String.prefix sub (String a s)) eqn:Hp; [done|].
    destruct (find sub s) eqn:Hf; [done|]. intros _ j (pre & post & Hs & Hj).
    destruct pre as [|b pre].
    + assert (String.prefix sub (String a s) = true); [|congruence].
      apply prefix_spec. by exists post.
    + rewrite app_cons in Hs. simplify_eq/=.
      apply (IH eq_refl (String.length pre)). by exists pre, post.
Qed.

End PyStrFacts.

(** ** Federated submission *)

Section Federated.
Context (E : Env) (jobs : list json) (group : json).

Local Abbreviation rq := (request_for jobs group).

Local Ltac run :=
  unfold attempt, try_except, print_submit_result, post, print_info,
    metrics_inc, lift, mbind, M_bind, mret, M_ret; cbn.

Lemma attempt_unreachable c w :
  http_post E (sent w) (rq c) = Unreachable →
  ∃ w', attempt E jobs group c w = (Ok None, w')
        ∧ sent w' = sent w ++ [rq c]
        ∧ counted w' = counted w ∧ drawn w' = drawn w.
Proof.
  intros H. run. unfold request_for in H. rewrite H. cbn. eauto.
Qed.

Lemma attempt_timed_out c w :
  http_post E (sent w) (rq c) = TimedOut →
  ∃ w', attempt E jobs group c w = (Ok (Some 1), w')
        ∧ sent w' = sent w ++ [rq c]
        ∧ last (printed w') = Some (timeout_warning E c)
        ∧ counted w' = counted w ∧ drawn w' = drawn w.
Proof.
  intros H. run. unfold request_for in H. rewrite H. cbn.
  eexists; split; [done|]. cbn. by rewrite last_snoc.
Qed.

Lemma attempt_created c w r :
  http_post E (sent w) (rq c) = Responded r →
  status_code r = 201 →
  ∃ w', attempt E jobs group c w = (Ok (Some 0), w')
        ∧ sent w' = sent w ++ [rq c]
        ∧ last (printed w')
          = Some (Info (submit_succeeded_message E (cluster_name c)
                          (extract_uuids E (text r)))
                       (Some (PyStr.join nl (extract_uuids E (text r)))))
        ∧ counted w' = counted w ++ [("command.submit.jobs", length jobs)]
        ∧ drawn w' = drawn w.
Proof.
  intros H Hs. run. unfold request_for in H. rewrite H. cbn.
  rewrite Hs. cbn. eexists; split; [done|]. cbn. by rewrite last_snoc.
Qed.

Lemma attempt_rejected c w r reason :
  http_post E (sent w) (rq c) = Responded r →
  status_code r ≠ 201 →
  failure_reason E r = Ok reason →
  ∃ w', attempt E jobs group c w = (Ok None, w')
        ∧ sent w' = sent w ++ [rq c]
        ∧ counted w' = counted w ∧ drawn w' = drawn w.
Proof.
  intros H Hs Hr. run. unfold request_for in H. rewrite H. cbn.
  apply Z.eqb_neq in Hs. rewrite Hs, Hr. cbn. eauto.
Qed.

Lemma failure_reason_raises r e :
  failure_reason E r = Raise e → e = TypeError.
Proof.
  unfold failure_reason. destruct (json_body r) as [data|]; [|done].
  destruct data; cbn; try congruence.
  - destruct (PyStr.contains "errors" s); cbn; [congruence|].
    destruct (PyStr.contains "error" s); cbn; congruence.
  - destruct (existsb _ l); cbn; [congruence|].
    destruct (existsb _ l); cbn; congruence.
  - case_bool_decide as H1; cbn.
    + destruct H1 as [v ->]. done.
    + case_bool_decide as H2; cbn; [|done]. destruct H2 as [v ->]. done.
Qed.

Lemma attempt_crashes c w r e :
  http_post E (sent w) (rq c) = Responded r →
  status_code r ≠ 201 →
  failure_reason E r = Raise e →
  ∃ w', attempt E jobs group c w = (Raise TypeError, w')
        ∧ sent w' = sent w ++ [rq c].
Proof.
  intros H Hs Hr. run. unfold request_for in H. rewrite H. cbn.
  apply Z.eqb_neq in Hs. rewrite Hs, Hr. cbn.
  apply failure_reason_raises in Hr as ->. eauto.
Qed.

Lemma attempt_passed_over c w :
  passed_over E (http_post E (sent w) (rq c)) = true →
  ∃ w', attempt E jobs group c w = (Ok None, w')
        ∧ sent w' = sent w ++ [rq c]
        ∧ counted w' = counted w ∧ drawn w' = drawn w.
Proof.
  destruct (http_post E (sent w) (rq c)) as [r| |] eqn:H; cbn; [|done|].
  - intros [Hs Hr]%andb_prop. apply negb_true_iff, Z.eqb_neq in Hs.
    destruct (failure_reason E r) as [reason|] eqn:Hf; [|done].
    by eapply attempt_rejected.
  - intros _. by apply attempt_unreachable.
Qed.

(** The loop runs through a stretch of clusters that are all passed
    over, making one request for each, in order. *)
Lemma federated_loop_passes before rest w :
  (∀ i c, before !! i = Some c →
          passed_over E (outcome_at E jobs group w (take i before) c) = true) →
  ∃ w', federated_loop E jobs group (before ++ rest) w
        = federated_loop E jobs group rest w'
        ∧ sent w' = sent w ++ (rq <$> before)
        ∧ counted w' = counted w ∧ drawn w' = drawn w.
Proof.
  revert w. induction before as [|c before IH]; intros w H.
  - exists w. rewrite app_nil_r. done.
  - destruct (attempt_passed_over c w) as (w1 & Ha & Hs & Hc & Hd).
    { specialize (H 0%nat c eq_refl). unfold outcome_at in H. cbn in H.
      by rewrite app_nil_r in H. }
    destruct (IH w1) as (w2 & Hl & Hs2 & Hc2 & Hd2).
    { intros i c' Hi. specialize (H (S i) c' Hi).
      unfold outcome_at in *. cbn in H. rewrite Hs, <-app_assoc. done. }
    exists w2. split; [|split; [|split]].
    + cbn. unfold mbind, M_bind at 1. rewrite Ha. done.
    + rewrite Hs2, Hs, <-app_assoc. done.
    + congruence.
    + congruence.
Qed.

(** X5. When every cluster either cannot be reached or answers with
    another status than 201 and a reason that can be read, there is one
    request per cluster, in order, and the aggregate failure is raised. *)
Lemma submit_federated_all_passed_over clusters w :
  (∀ i c, clusters !! i = Some c →
          passed_over E (outcome_at E jobs group w (take i clusters) c) = true) →
  ∃ w', submit_federated E clusters jobs group w = (Raise (all_failed E), w')
        ∧ sent w' = sent w ++ (rq <$> clusters).
Proof.
  intros H.
  destruct (federated_loop_passes clusters [] w H) as (w' & Hl & Hs & _).
  rewrite app_nil_r in Hl. exists w'. split; [|done].
  unfold submit_federated, mbind, M_bind. rewrite Hl. done.
Qed.

(** C1. When the cluster [c] answers 201, and the loop got to it because
    every cluster before it was passed over (it could not be reached, or it
    rejected the batch), the submission returns 0, the requests made are
    exactly those for the clusters up to [c], one each and in list order,
    and none is made for a cluster after [c]. *)
Theorem submit_federated_stops_at_created before c after w r :
  (∀ i c', before !! i = Some c' →
           passed_over E (outcome_at E jobs group w (take i before) c') = true) →
  outcome_at E jobs group w before c = Responded r →
  status_code r = 201 →
  ∃ w', submit_federated E (before ++ c :: after) jobs group w = (Ok 0, w')
        ∧ sent w' = sent w ++ (rq <$> before ++ [c])
        ∧ counted w' = counted w ++ [("command.submit.jobs", length jobs)].
Proof.
  intros H Hc Hs.
  destruct (federated_loop_passes before (c :: after) w H)
    as (w1 & Hl & Hs1 & Hc1 & _).
  unfold outcome_at in Hc. rewrite <-Hs1 in Hc.
  destruct (attempt_created c w1 r Hc Hs) as (w2 & Ha & Hs2 & _ & Hc2 & _).
  exists w2. split; [|split].
  - unfold submit_federated, mbind, M_bind. rewrite Hl. cbn.
    unfold mbind, M_bind. rewrite Ha. done.
  - rewrite Hs2, Hs1, fmap_app, app_assoc. done.
  - congruence.
Qed.

(** C2. When the request for [c] runs into a read timeout, the submission
    returns 1, which is neither success nor the aggregate failure; the last
    thing printed is the warning that the submission may have completed;
    the requests made are those for the clusters up to [c], one each: [c] is
    not asked again and no cluster after it is asked. *)
Theorem submit_federated_stops_at_timeout before c after w :
  (∀ i c', before !! i = Some c' →
           passed_over E (outcome_at E jobs group w (take i before) c') = true) →
  outcome_at E jobs group w before c = TimedOut →
  ∃ w', submit_federated E (before ++ c :: after) jobs group w = (Ok 1, w')
        ∧ sent w' = sent w ++ (rq <$> before ++ [c])
        ∧ last (printed w') = Some (timeout_warning E c)
        ∧ counted w' = counted w
        ∧ Ok 1 ≠ Ok 0 ∧ Ok 1 ≠ @Raise Z (all_failed E).
Proof.
  intros H Hc.
  destruct (federated_loop_passes before (c :: after) w H)
    as (w1 & Hl & Hs1 & Hc1 & _).
  unfold outcome_at in Hc. rewrite <-Hs1 in Hc.
  destruct (attempt_timed_out c w1 Hc) as (w2 & Ha & Hs2 & Hp & Hc2 & _).
  exists w2. split_and!; try done.
  - unfold submit_federated, mbind, M_bind. rewrite Hl. cbn.
    unfold mbind, M_bind. rewrite Ha. done.
  - rewrite Hs2, Hs1, fmap_app, app_assoc. done.
  - congruence.
Qed.

End Federated.

(** C1, on three clusters: the first cannot be reached, the second answers
    201, the third is never asked. *)
Lemma submit_federated_stops_at_created_witness :
  ∃ w', submit_federated
          (Sample.env
             [Unreachable;
              Responded {| status_code := 201; text := Sample.u1;
                           json_body := None |}] [] "")
          ([Sample.c1] ++ Sample.c2 :: [Sample.c3]) [] JNull Sample.start
        = (Ok 0, w')
        ∧ sent w' = sent Sample.start
                    ++ (request_for [] JNull <$> [Sample.c1] ++ [Sample.c2])
        ∧ counted w' = counted Sample.start ++ [("command.submit.jobs", 0%nat)].
Proof.
  eapply (submit_federated_stops_at_created _ [] JNull [Sample.c1] Sample.c2
            [Sample.c3] Sample.start).
  - intros [|i] c' Hi; simplify_eq/=. reflexivity.
  - reflexivity.
  - reflexivity.
Defined.

(** C2, on three clusters: the first cannot be reached, the second times
    out, the third is never asked. *)
Lemma submit_federated_stops_at_timeout_witness :
  ∃ w', submit_federated (Sample.env [Unreachable; TimedOut] [] "")
          ([Sample.c1] ++ Sample.c2 :: [Sample.c3]) [] JNull Sample.start
        = (Ok 1, w')
        ∧ sent w' = sent Sample.start
                    ++ (request_for [] JNull <$> [Sample.c1] ++ [Sample.c2])
        ∧ last (printed w')
          = Some (timeout_warning (Sample.env [Unreachable; TimedOut] [] "")
                    Sample.c2)
        ∧ counted w' = counted Sample.start
        ∧ Ok 1 ≠ Ok 0
        ∧ Ok 1 ≠ @Raise Z (all_failed (Sample.env [Unreachable; TimedOut] [] "")).
Proof.
  eapply (submit_federated_stops_at_timeout _ [] JNull [Sample.c1] Sample.c2
            [Sample.c3] Sample.start).
  - intros [|i] c' Hi; simplify_eq/=. reflexivity.
  - reflexivity.
Defined.

(** C3 does not hold of the code. Two clusters; the first answers 500 with
    the body [null], which is valid JSON but no container: testing it for
    the key [errors] raises [TypeError], which neither handler of the loop
    takes.  One request is made instead of two, and the exception is not
    the aggregate failure. *)
Theorem submit_federated_rejection_crash :
  let E := Sample.env
             [Responded {| status_code := 500; text := "null";
                           json_body := Some JNull |};
              Responded {| status_code := 500; text := "null";
                           json_body := Some JNull |}] [] "" in
  let run := submit_federated E [Sample.c1; Sample.c2] [] JNull Sample.start in
  run.1 = Raise TypeError
  ∧ sent run.2 = [request_for [] JNull Sample.c1]
  ∧ run.1 ≠ Raise (all_failed E).
Proof. vm_compute. split_and!; [reflexivity..|discriminate]. Qed.

(** The same happens on a rejection whose body is a JSON string with the
    word [error] in it: the word is found in the string, which then cannot
    be indexed by it. *)
Example failure_reason_of_string :
  failure_reason (Sample.env [] [] "")
    {| status_code := 500;
       text := Sample.dq +:+ "internal error" +:+ Sample.dq;
       json_body := Some (JStr "internal error") |}
  = Raise TypeError.
Proof. vm_compute. reflexivity. Qed.

(** ** Reading the identifiers off a 201 body *)

(** The example of section 8: two identifiers in front of the marker. *)
Example extract_uuids_example :
  extract_uuids (Sample.env [] [] "")
    (Sample.dq +:+ Sample.u1 +:+ " " +:+ Sample.u2
     +:+ " submitted groups foo" +:+ Sample.dq)
  = [Sample.u1; Sample.u2].
Proof. vm_compute. reflexivity. Qed.

(** C4 as it is worded fails: with two quote characters at each end, the
    code removes both layers and finds the identifier, while the removal of
    a single layer leaves a token that is no identifier. *)
Lemma extract_uuids_not_one_layer :
  let E := Sample.env [] [] "" in
  let body := Sample.dq +:+ Sample.dq +:+ Sample.u1
              +:+ Sample.dq +:+ Sample.dq in
  extract_uuids E body = [Sample.u1]
  ∧ extract_uuids_one_layer E body = []
  ∧ extract_uuids E body ≠ extract_uuids_one_layer E body.
Proof. vm_compute. split_and!; [reflexivity..|discriminate]. Qed.

(** C4, amended. The body is a run of quote characters, a core that
    neither starts nor ends with a quote, and a run of quote characters:
    every quote at either end is trimmed.  The head of the core is what
    precedes the first occurrence of the marker, or the whole core when the
    marker does not occur.  The identifiers are the tokens of the head that
    are valid UUIDs, in the order of the tokens, and nothing else. *)
Theorem extract_uuids_spec (E : Env) (body : string) :
  ∃ (n m : nat) (core head : string),
    body = PyStr.copies n "034" +:+ core +:+ PyStr.copies m "034"
    ∧ PyStr.starts_with "034" core = false
    ∧ PyStr.ends_with "034" core = false
    ∧ ((∃ tail, core = head +:+ " submitted groups" +:+ tail
                ∧ ∀ j, PyStr.occurs_at " submitted groups" core j
                       → (String.length head ≤ j)%nat)
       ∨ (head = core ∧ ∀ j, ¬ PyStr.occurs_at " submitted groups" core j))
    ∧ extract_uuids E body
      = filter (λ p, is_valid_uuid E p) (PyStr.split head)
    ∧ (∀ p, p ∈ extract_uuids E body
            ↔ p ∈ PyStr.split head ∧ is_valid_uuid E p = true)
    ∧ extract_uuids E body `sublist_of` PyStr.split head.
Proof.
  destruct (PyStrFacts.strip_spec "034" body) as (n & m & Hb & Hs & He).
  set (core := PyStr.strip "034" body) in *.
  set (head := match PyStr.find " submitted groups" core with
               | Some i => PyStr.take i core
               | None => core
               end).
  assert (extract_uuids E body
          = filter (λ p, is_valid_uuid E p) (PyStr.split head)) as Hx by done.
  exists n, m, core, head. split_and!; try done.
  - subst head. destruct (PyStr.find _ core) as [i|] eqn:Hf.
    + left. apply PyStrFacts.find_Some in Hf as ((tail & Ht) & Hl & Hmin).
      exists tail. split; [done|]. by rewrite Hl.
    + right. split; [done|]. by apply PyStrFacts.find_None.
  - intros p. rewrite Hx, list_elem_of_filter, Is_true_true. tauto.
  - rewrite Hx. apply sublist_filter.
Qed.

(** ** Command resolution *)

(** One token given as one argument is not the token quoted. *)
Example acquire_commands_single_unquoted :
  (acquire_commands (Sample.env [] [] "") (Some ["echo hi"]) Sample.start).1
  = Ok ["echo hi"]
  ∧ shlex_quote "echo hi" = "'echo hi'"
  ∧ (acquire_commands (Sample.env [] [] "") (Some ["--"]) Sample.start).1
    = Ok ["--"]
  ∧ (acquire_commands (Sample.env [] [] "") (Some ["--"; "echo"; "a b"])
       Sample.start).1
    = Ok ["echo 'a b'"].
Proof. vm_compute. split_and!; reflexivity. Qed.

(** C10. A single token is the command as it stands, the separator [--]
    included, and is not quoted.  With two tokens or more, a leading [--]
    is dropped, then each token is quoted and the results are joined by
    single spaces into one command.  Neither case reads or prints. *)
Theorem acquire_commands_explicit (E : Env) (w : World) :
  (∀ t, acquire_commands E (Some [t]) w = (Ok [t], w))
  ∧ (∀ t1 t2 ts,
       acquire_commands E (Some (t1 :: t2 :: ts)) w
       = (Ok [PyStr.join " "
                (shlex_quote <$> (if decide (t1 = "--") then t2 :: ts
                                  else t1 :: t2 :: ts))], w)).
Proof.
  split; [reflexivity|]. intros t1 t2 ts. unfold acquire_commands.
  change (length (t1 :: t2 :: ts) =? 1)%nat with false. cbv iota zeta.
  destruct (String.eqb_spec t1 "--"); by case_decide.
Qed.

(** ** Assembly makes no request *)

Section Silent.
Context (E : Env).

Lemma bind_Ok {A B} (m : M A) (f : A → M B) w a w1 :
  m w = (Ok a, w1) → (m ≫= f) w = f a w1.
Proof. unfold mbind, M_bind. by intros ->. Qed.

Lemma bind_Raise {A B} (m : M A) (f : A → M B) w e w1 :
  m w = (Raise e, w1) → (m ≫= f) w = (Raise e, w1).
Proof. unfold mbind, M_bind. by intros ->. Qed.

Lemma keeps_sent_ret {A} (a : A) : keeps_sent (mret a).
Proof. done. Qed.

Lemma keeps_sent_raise {A} e : keeps_sent (@raise A e).
Proof. done. Qed.

Lemma keeps_sent_lift {A} (r : res A) : keeps_sent (lift r).
Proof. done. Qed.

Lemma keeps_sent_bind {A B} (m : M A) (f : A → M B) :
  keeps_sent m → (∀ a, keeps_sent (f a)) → keeps_sent (m ≫= f).
Proof.
  intros Hm Hf w. unfold mbind, M_bind. specialize (Hm w).
  destruct (m w) as [[a|e] w1]; cbn in *; [|done]. by rewrite Hf.
Qed.

Lemma keeps_sent_print_info text silent : keeps_sent (print_info text silent).
Proof. done. Qed.

Lemma keeps_sent_print_stderr text : keeps_sent (print_stderr text).
Proof. done. Qed.

Lemma keeps_sent_fresh_uuid : keeps_sent (fresh_uuid E).
Proof. done. Qed.

Lemma keeps_sent_mapM {A B} (f : A → M B) (l : list A) :
  (∀ a, keeps_sent (f a)) → keeps_sent (mapM f l).
Proof.
  intros Hf. induction l as [|a l IH]; [done|]. cbn.
  apply keeps_sent_bind; [done|]. intros b.
  apply keeps_sent_bind; [done|]. done.
Qed.

Local Ltac silent :=
  repeat first
    [ apply keeps_sent_ret | apply keeps_sent_raise | apply keeps_sent_lift
    | apply keeps_sent_print_info | apply keeps_sent_print_stderr
    | apply keeps_sent_fresh_uuid
    | apply keeps_sent_bind; [|intros ?]
    | match goal with
      | |- keeps_sent (match ?x with _ => _ end) => destruct x
      end ].

Lemma keeps_sent_acquire_commands tokens :
  keeps_sent (acquire_commands E tokens).
Proof. unfold acquire_commands, read_commands_from_stdin. silent. Qed.

Lemma keeps_sent_resolve_group jt : keeps_sent (resolve_group E jt).
Proof. unfold resolve_group. silent. Qed.

Lemma keeps_sent_build_jobs raw cmd jt : keeps_sent (build_jobs E raw cmd jt).
Proof.
  unfold build_jobs, read_jobs_from_stdin. silent.
  apply keeps_sent_acquire_commands.
Qed.

Lemma keeps_sent_finish_job prefix job : keeps_sent (finish_job E prefix job).
Proof. unfold finish_job. silent. Qed.

Lemma keeps_sent_assemble args : keeps_sent (assemble E args).
Proof.
  unfold assemble. silent.
  - apply keeps_sent_resolve_group.
  - apply keeps_sent_build_jobs.
  - apply keeps_sent_mapM, keeps_sent_finish_job.
Qed.

(** When assembly fails, the invocation fails with the same exception and
    no request has been made. *)
Lemma submit_assembly_raises clusters args w e w' :
  clusters ≠ [] →
  assemble E args w = (Raise e, w') →
  submit E clusters args w = (Raise e, w') ∧ sent w' = sent w.
Proof.
  intros Hc Ha. split.
  - unfold submit. destruct clusters as [|c cs]; [done|]. cbn.
    erewrite bind_Ok by done. by erewrite bind_Raise.
  - pose proof (keeps_sent_assemble args w) as H. by rewrite Ha in H.
Qed.

End Silent.

(** ** Assembly *)

Section Assembly.
Context (E : Env).

Lemma take_options_Ok args prefix :
  args !! "command-prefix" = Some prefix →
  ∃ jt, take_options E args
        = Ok (dict_get "raw" args, dict_get "command" args, prefix, jt)
        ∧ jt !! "uuid" = args !! "uuid"
        ∧ jt !! "group" = args !! "group"
        ∧ jt !! "group-name" = args !! "group-name"
        ∧ jt !! "command" = None.
Proof.
  intros Hp. unfold take_options, dict_pop, py_getitem. cbn.
  rewrite !lookup_delete_ne, Hp by done. cbn.
  eexists. split; [done|]. by simplify_map_eq.
Qed.

Lemma resolve_group_Ok jt w :
  ∃ g jt' w', resolve_group E jt w = (Ok (g, jt'), w')
    ∧ (∀ k, k ≠ "group" → k ≠ "group-name" → jt' !! k = jt !! k)
    ∧ (∀ gd, g = JDict gd →
         ∃ v, jt' !! "group" = Some v ∧ gd !! "uuid" = Some v).
Proof.
  unfold resolve_group. destruct (jt !! "group-name") as [gn|] eqn:Hgn.
  - destruct (jt !! "group") as [v|] eqn:Hg; cbn.
    + do 3 eexists. split; [done|]. split.
      * intros k ??. by simplify_map_eq.
      * intros gd [= <-]. exists v. unfold dict_get. by simplify_map_eq.
    + do 3 eexists. split; [done|]. split.
      * intros k ??. by simplify_map_eq.
      * intros gd [= <-]. eexists. unfold dict_get. by simplify_map_eq.
  - do 3 eexists. split; [done|]. split; [done|]. done.
Qed.

Lemma parse_raw_job_spec_malformed job r :
  malformed (json_loads E r) = true →
  parse_raw_job_spec E job r = Raise raw_job_error.
Proof.
  unfold parse_raw_job_spec. destruct (json_loads E r) as [[]|]; by cbn.
Qed.

Lemma build_jobs_raw_malformed raw cmd jt w :
  truthy raw = true → truthy cmd = false →
  malformed (json_loads E (stdin_read E)) = true →
  ∃ w', build_jobs E raw cmd jt w = (Raise raw_job_error, w').
Proof.
  intros Hr Hc Hm. unfold build_jobs. rewrite Hr, Hc.
  unfold read_jobs_from_stdin, print_stderr, lift, mbind, M_bind, mret, M_ret.
  cbn. rewrite parse_raw_job_spec_malformed by done. eauto.
Qed.

Lemma acquire_commands_stdin w :
  (1 ≤ length (read_lines E))%nat →
  ∃ w', acquire_commands E None w = (Ok (read_lines E), w')
        ∧ drawn w' = drawn w.
Proof.
  intros Hl. unfold acquire_commands, read_commands_from_stdin.
  eexists. erewrite bind_Ok by reflexivity.
  destruct (Nat.ltb_spec (length (read_lines E)) 1); [lia|]. done.
Qed.

Lemma build_jobs_single_uuid raw cmd jt w :
  truthy raw = false → truthy cmd = false →
  (1 < length (read_lines E))%nat →
  truthy (dict_get "uuid" jt) = true →
  ∃ w', build_jobs E raw cmd jt w = (Raise single_uuid_error, w').
Proof.
  intros Hr Hc Hl Hu. unfold build_jobs. rewrite Hr.
  erewrite bind_Ok; [|unfold lift, as_tokens; by rewrite Hc].
  destruct (acquire_commands_stdin w) as (w' & Ha & _); [lia|].
  erewrite bind_Ok by done. rewrite Hu.
  destruct (Nat.ltb_spec 1 (length (read_lines E))); [|lia]. by eexists.
Qed.

(** Assembly fails where [build_jobs] fails. *)
Lemma assemble_build_raises args prefix e :
  args !! "command-prefix" = Some prefix →
  (∀ jt w, jt !! "uuid" = args !! "uuid" →
           ∃ w', build_jobs E (dict_get "raw" args) (dict_get "command" args)
                   jt w = (Raise e, w')) →
  ∀ w, ∃ w', assemble E args w = (Raise e, w').
Proof.
  intros Hp Hb w.
  destruct (take_options_Ok args prefix Hp) as (jt & Ht & Hu & _).
  destruct (resolve_group_Ok jt w) as (g & jt' & w1 & Hg & Hk & _).
  destruct (Hb jt' w1) as (w2 & Hb2).
  { rewrite Hk by done. done. }
  exists w2. unfold assemble.
  erewrite bind_Ok; [|unfold lift; by rewrite Ht]. cbv beta iota.
  erewrite bind_Ok by done. cbv beta iota. by erewrite bind_Raise.
Qed.

End Assembly.

(** What [parse_raw_job_spec] gives, by what [json.loads] returns. *)
Lemma parse_raw_job_spec_cases (E : Env) (job : json) (r : string) :
  parse_raw_job_spec E job r
  = match json_loads E r with
    | Some (JDict d) => Ok [deep_merge job (JDict d)]
    | Some (JList l) => Ok (deep_merge job <$> l)
    | _ => Raise raw_job_error
    end.
Proof.
  unfold parse_raw_job_spec. by destruct (json_loads E r) as [[]|].
Qed.

(** C5, amended. Outside raw mode, with an identifier in the
    configuration and more than one command (which takes that no token is
    given and that more than one line is read), the invocation fails with
    the validation error and no request has been made. *)
Theorem submit_rejects_single_uuid (E : Env) clusters args w :
  clusters ≠ [] →
  is_Some (args !! "command-prefix") →
  truthy (dict_get "raw" args) = false →
  truthy (dict_get "command" args) = false →
  (1 < length (read_lines E))%nat →
  truthy (dict_get "uuid" args) = true →
  ∃ w', submit E clusters args w = (Raise single_uuid_error, w')
        ∧ sent w' = sent w.
Proof.
  intros Hc [prefix Hp] Hr Hcmd Hl Hu.
  destruct (assemble_build_raises E args prefix single_uuid_error Hp) with (w := w)
    as (w' & Ha).
  { intros jt w0 Hj. apply build_jobs_single_uuid; try done.
    unfold dict_get in *. by rewrite Hj. }
  exists w'. by apply submit_assembly_raises.
Qed.

(** The examples of section 8 for raw mode, on a [json.loads] that gives
    the values written there. *)
Example parse_raw_job_spec_examples :
  let template := JDict {[ "mem" := JInt 128 ]} in
  let one := JDict {[ "cpus" := JInt 1 ]} in
  let two := JDict {[ "cpus" := JInt 2 ]} in
  let loads (s : string) :=
    if String.eqb s "mapping" then Some two
    else if String.eqb s "list" then Some (JList [one; two])
    else if String.eqb s "string" then Some (JStr "5")
    else None in
  let E := {| http_post := Sample.scripted []; uuid4 := Sample.numbered_uuid;
              current_user := "alice"; is_valid_uuid := Sample.uuid_shaped;
              json_loads := loads; json_dumps := λ _, ""; py_str := λ _, "";
              read_lines := []; stdin_read := ""; VERSION := "1.0";
              colors_success := id; colors_failed := id;
              colors_reason := id; colors_bold := id |} in
  parse_raw_job_spec E template "mapping"
  = Ok [JDict {[ "mem" := JInt 128; "cpus" := JInt 2 ]}]
  ∧ parse_raw_job_spec E template "list"
    = Ok [JDict {[ "mem" := JInt 128; "cpus" := JInt 1 ]};
          JDict {[ "mem" := JInt 128; "cpus" := JInt 2 ]}]
  ∧ parse_raw_job_spec E template "string" = Raise raw_job_error
  ∧ parse_raw_job_spec E template "{" = Raise raw_job_error.
Proof. vm_compute. split_and!; reflexivity. Qed.

(** C5 as it is worded fails in raw mode: with an identifier in the
    configuration and a raw list of two overrides, nothing is refused; the
    two jobs, both with that identifier, are posted to the first cluster. *)
Lemma submit_raw_shares_uuid :
  let E := Sample.env
             [Responded {| status_code := 201; text := Sample.u1;
                           json_body := None |}] [] "[{}, {}]" in
  let args : gmap string json :=
    {[ "raw" := JBool true; "uuid" := JStr Sample.u1;
       "command-prefix" := JStr "" ]} in
  let job : json :=
    JDict {[ "uuid" := JStr Sample.u1; "name" := JStr "alice_job";
             "application" := JDict {[ "name" := JStr "cook-scheduler-cli";
                                       "version" := JStr "1.0" ]} ]} in
  let run := submit E [Sample.c1] args Sample.start in
  run.1 = Ok 0
  ∧ sent run.2 = [request_for [job; job] JNull Sample.c1].
Proof. vm_compute. split; reflexivity. Qed.

(** C5, on two commands typed on standard input and an identifier in the
    configuration. *)
Lemma submit_rejects_single_uuid_witness :
  ∃ w', submit (Sample.env [] ["echo a"; "echo b"] "") [Sample.c1]
          {[ "uuid" := JStr Sample.u1; "command-prefix" := JStr "" ]}
          Sample.start
        = (Raise single_uuid_error, w')
        ∧ sent w' = sent Sample.start.
Proof.
  apply submit_rejects_single_uuid.
  - discriminate.
  - eexists. vm_compute. reflexivity.
  - vm_compute. reflexivity.
  - vm_compute. reflexivity.
  - cbn. lia.
  - vm_compute. reflexivity.
Defined.

(** ** The loop over the jobs *)

Section Finish.
Context (E : Env).

Lemma bind_inv_Ok {A B} (m : M A) (f : A → M B) w b w' :
  (m ≫= f) w = (Ok b, w') →
  ∃ a w1, m w = (Ok a, w1) ∧ f a w1 = (Ok b, w').
Proof.
  unfold mbind, M_bind. destruct (m w) as [[a|e] w1]; [eauto|done].
Qed.

Lemma finish_job_inv prefix job w job' w' :
  finish_job E prefix job w = (Ok job', w') →
  ∃ d d', job = JDict d ∧ job' = JDict d'
          ∧ finished E prefix (drawn w) d d'
          ∧ drawn w' = (drawn w + (if lacks_id job then 1 else 0))%nat.
Proof.
  destruct job as [| | | | | |d]; try done. unfold finish_job, finished.
  intros (d1 & w1 & H1 & H)%bind_inv_Ok.
  apply bind_inv_Ok in H as (d2 & w2 & H2 & H). injection H as <- <-.
  exists d. eexists. split; [done|]. split; [done|]. cbn [lacks_id].
  assert (d1 !! "name" = d !! "name" ∧ d1 !! "command" = d !! "command"
          ∧ (∀ key, key ≠ "uuid" → d1 !! key = d !! key)
          ∧ (if truthy (dict_get "uuid" d) then d1 !! "uuid" = d !! "uuid"
             else d1 !! "uuid" = Some (JStr (uuid4 E (drawn w))))
          ∧ drawn w1
            = (drawn w + (if negb (truthy (dict_get "uuid" d)) then 1 else 0))%nat)
    as (Hn & Hc & Hk & Hu & Hd).
  { unfold mret, M_ret, mbind, M_bind, fresh_uuid in H1.
    destruct (truthy (dict_get "uuid" d)); cbn in H1; simplify_eq/=.
    - split_and!; first [done | cbn; lia].
    - clear H2. split_and!.
      + by rewrite lookup_insert_ne.
      + by rewrite lookup_insert_ne.
      + intros key ?. by rewrite lookup_insert_ne.
      + by rewrite lookup_insert_eq.
      + lia. }
  clear H1.
  set (d1' := if truthy (dict_get "name" d1) then d1
              else <["name" := JStr (current_user E +:+ "_job")]> d1) in *.
  assert (d1' !! "uuid" = d1 !! "uuid" ∧ d1' !! "command" = d1 !! "command"
          ∧ (∀ key, key ≠ "name" → d1' !! key = d1 !! key)
          ∧ (if truthy (dict_get "name" d) then d1' !! "name" = d !! "name"
             else d1' !! "name" = Some (JStr (current_user E +:+ "_job"))))
    as (Hu' & Hc' & Hk' & Hn').
  { subst d1'. unfold dict_get. rewrite Hn.
    destruct (truthy (default JNull (d !! "name"))).
    - by split_and!.
    - split_and!.
      + by rewrite lookup_insert_ne.
      + by rewrite lookup_insert_ne.
      + intros key ?. by rewrite lookup_insert_ne.
      + by rewrite lookup_insert_eq. }
  clearbody d1'.
  unfold mret, M_ret in H2. destruct (truthy prefix).
  - apply bind_inv_Ok in H2 as (c & w3 & Hg & H2). injection H2 as <- <-.
    unfold lift, py_getitem in Hg. destruct (d1' !! "command") as [c'|] eqn:Hcmd;
      simplify_eq/=.
    split_and!.
    + destruct (truthy (dict_get "uuid" d)); simplify_map_eq; congruence.
    + destruct (truthy (dict_get "name" d)); simplify_map_eq; congruence.
    + exists c. split; [congruence|]. by simplify_map_eq.
    + intros key ???. rewrite lookup_insert_ne by done.
      rewrite Hk', Hk by done. done.
    + done.
  - injection H2 as <- <-. split_and!.
    + destruct (truthy (dict_get "uuid" d)); congruence.
    + done.
    + congruence.
    + intros key ???. rewrite Hk', Hk by done. done.
    + done.
Qed.

(** The jobs are taken in order; the [i]-th one meets the generator after
    one draw for each job in front of it that had no identifier. *)
Lemma mapM_finish_job_inv prefix jobs w jobs' w' :
  mapM (finish_job E prefix) jobs w = (Ok jobs', w') →
  length jobs' = length jobs
  ∧ drawn w' = (drawn w + draws_before jobs (length jobs))%nat
  ∧ ∀ i job, jobs !! i = Some job →
      ∃ d d', job = JDict d ∧ jobs' !! i = Some (JDict d')
              ∧ finished E prefix (drawn w + draws_before jobs i) d d'.
Proof.
  revert w jobs'. induction jobs as [|job jobs IH]; intros w jobs' H.
  - injection H as <- <-. split_and!; [done|cbn; lia|done].
  - cbn in H. apply bind_inv_Ok in H as (job' & w1 & Hj & H).
    apply bind_inv_Ok in H as (rest & w2 & Hr & H). injection H as <- <-.
    apply finish_job_inv in Hj as (d & d' & -> & -> & Hf & Hd).
    destruct (IH _ _ Hr) as (Hlen & Hdr & Hi).
    assert (∀ i, draws_before (JDict d :: jobs) (S i)
                 = ((if lacks_id (JDict d) then 1 else 0) + draws_before jobs i)%nat)
      as Hdb.
    { intros i. unfold draws_before. cbn [take]. rewrite filter_cons.
      destruct (lacks_id (JDict d)).
      - by rewrite decide_True.
      - by rewrite decide_False by (cbn; tauto). }
    split_and!.
    + cbn. by rewrite Hlen.
    + cbn [length]. rewrite Hdb, Hdr, Hd. lia.
    + intros [|i] job Hjob; simplify_eq/=.
      * exists d, d'. split_and!; try done.
        unfold draws_before. cbn. by rewrite Nat.add_0_r.
      * destruct (Hi i job Hjob) as (d0 & d0' & -> & Hl' & Hf').
        exists d0, d0'. split_and!; try done.
        rewrite Hdb. by rewrite Hd, <-Nat.add_assoc in Hf'.
Qed.

End Finish.

(** ** The assembled batch *)

Section Batch.
Context (E : Env).

Lemma take_options_inv args raw cmd prefix jt :
  take_options E args = Ok (raw, cmd, prefix, jt) →
  raw = dict_get "raw" args ∧ cmd = dict_get "command" args
  ∧ args !! "command-prefix" = Some prefix
  ∧ jt !! "uuid" = args !! "uuid"
  ∧ jt !! "command" = None.
Proof.
  destruct (args !! "command-prefix") as [p|] eqn:Hp.
  - destruct (take_options_Ok E args p Hp) as (jt' & -> & Hu & _ & _ & Hc).
    intros [= <- <- <- <-]. by split_and!.
  - unfold take_options, dict_pop, py_getitem. cbn.
    rewrite !lookup_delete_ne, Hp by done. done.
Qed.

Lemma assemble_inv args w jobs' group w' :
  assemble E args w = (Ok (jobs', group), w') →
  ∃ prefix jt0 jt w1 jobs w2,
    take_options E args
    = Ok (dict_get "raw" args, dict_get "command" args, prefix, jt0)
    ∧ args !! "command-prefix" = Some prefix
    ∧ resolve_group E jt0 w = (Ok (group, jt), w1)
    ∧ build_jobs E (dict_get "raw" args) (dict_get "command" args) jt w1
      = (Ok jobs, w2)
    ∧ mapM (finish_job E prefix) jobs w2 = (Ok jobs', w').
Proof.
  unfold assemble. intros ([[[raw cmd] prefix] jt0] & w0 & Ht & H)%bind_inv_Ok.
  unfold lift in Ht. injection Ht as Ht <-.
  apply bind_inv_Ok in H as ([g jt] & w1 & Hg & H).
  apply bind_inv_Ok in H as (jobs & w2 & Hb & H).
  apply bind_inv_Ok in H as (jobs'' & w3 & Hm & H). injection H as <- <- <-.
  destruct (take_options_inv _ _ _ _ _ Ht) as (-> & -> & Hp & _).
  by exists prefix, jt0, jt, w1, jobs, w2.
Qed.

(** C9. In a batch that has been assembled, whatever the mode, every job
    that [build_jobs] made went through the same loop: a job without an
    identifier of its own received the next one drawn from the generator
    (one draw for each such job, in the order of the batch); a job without
    a name received the user's name followed by [_job]; and when the
    configured prefix is not empty, the command of every job is the prefix
    followed directly by the command the job had. *)
Theorem assemble_finishes_every_job args w jobs' group w' :
  assemble E args w = (Ok (jobs', group), w') →
  ∃ prefix jt w1 jobs w2,
    args !! "command-prefix" = Some prefix
    ∧ build_jobs E (dict_get "raw" args) (dict_get "command" args) jt w1
      = (Ok jobs, w2)
    ∧ length jobs' = length jobs
    ∧ ∀ i job, jobs !! i = Some job →
        ∃ d d', job = JDict d ∧ jobs' !! i = Some (JDict d')
                ∧ finished E prefix (drawn w2 + draws_before jobs i) d d'.
Proof.
  intros (prefix & jt0 & jt & w1 & jobs & w2 & _ & Hp & _ & Hb & Hm)%assemble_inv.
  apply mapM_finish_job_inv in Hm as (Hlen & _ & Hi).
  by exists prefix, jt, w1, jobs, w2.
Qed.

End Batch.

(** C9, on two commands typed on standard input, with the prefix
    [time ]. *)
Lemma assemble_finishes_every_job_witness :
  let E := Sample.env [] ["echo a"; "echo b"] "" in
  let args : gmap string json :=
    {[ "command-prefix" := JStr "time "; "mem" := JInt 128 ]} in
  ∃ jobs' group w',
    assemble E args Sample.start = (Ok (jobs', group), w')
    ∧ ∃ prefix jt w1 jobs w2,
        args !! "command-prefix" = Some prefix
        ∧ build_jobs E (dict_get "raw" args) (dict_get "command" args) jt w1
          = (Ok jobs, w2)
        ∧ length jobs' = length jobs
        ∧ ∀ i job, jobs !! i = Some job →
            ∃ d d', job = JDict d ∧ jobs' !! i = Some (JDict d')
                    ∧ finished E prefix (drawn w2 + draws_before jobs i) d d'.
Proof.
  intros E args.
  destruct (assemble E args Sample.start) as [[[jobs' group]|e] w'] eqn:Ha;
    [|by vm_compute in Ha].
  exists jobs', group, w'. split; [reflexivity|].
  exact (assemble_finishes_every_job E args Sample.start jobs' group w' Ha).
Defined.

(** What C9 gives on that batch. *)
Example assemble_example :
  let E := Sample.env [] ["echo a"; "echo b"] "" in
  let args : gmap string json :=
    {[ "command-prefix" := JStr "time "; "mem" := JInt 128 ]} in
  let application : json :=
    JDict {[ "name" := JStr "cook-scheduler-cli"; "version" := JStr "1.0" ]} in
  (assemble E args Sample.start).1
  = Ok ([JDict {[ "application" := application; "mem" := JInt 128;
                  "command" := JStr "time echo a"; "uuid" := JStr "uuid-0";
                  "name" := JStr "alice_job" ]};
         JDict {[ "application" := application; "mem" := JInt 128;
                  "command" := JStr "time echo b"; "uuid" := JStr "uuid-1";
                  "name" := JStr "alice_job" ]}], JNull).
Proof. vm_compute. reflexivity. Qed.

(** ** The invariant of a batch *)

Section Invariant.
Context (E : Env).

Lemma shlex_quote_nonempty s : shlex_quote s ≠ "".
Proof.
  destruct s as [|a s]; [done|]. unfold shlex_quote.
  by destruct (forallb shlex_safe _).
Qed.

Lemma join_nonempty sep x xs : x ≠ "" → PyStr.join sep (x :: xs) ≠ "".
Proof. intros Hx. destruct xs, x; done. Qed.

Lemma tokens_inv (l : list json) (ts : list string) :
  mapM (λ t, match t with JStr s => Ok s | _ => Raise TypeError end) l = Ok ts →
  l = JStr <$> ts.
Proof.
  revert ts. induction l as [|x l IH]; intros ts; cbn.
  - by intros [= <-].
  - destruct x; try done. cbn.
    destruct (mapM _ l) as [ts'|] eqn:Hm; [|done]. cbn. intros [= <-].
    by rewrite (IH ts').
Qed.

Lemma as_tokens_single cmd t :
  as_tokens cmd = Ok (Some [t]) → cmd = JList [JStr t].
Proof.
  unfold as_tokens. destruct (truthy cmd); [|done].
  destruct cmd; try done.
  destruct (mapM _ l) as [ts|] eqn:Hm; [|done]. cbn. intros [= ->].
  by rewrite (tokens_inv _ _ Hm).
Qed.

Lemma acquire_commands_inv tokens w commands w' :
  acquire_commands E tokens w = (Ok commands, w') →
  commands = read_lines E
  ∨ (∃ t, tokens = Some [t] ∧ commands = [t])
  ∨ (∃ c, commands = [c] ∧ c ≠ "").
Proof.
  assert (∀ w0, read_commands_from_stdin E w0 = (Ok commands, w') →
                commands = read_lines E) as Hstdin.
  { intros w0 (? & w1 & _ & H)%bind_inv_Ok. cbv zeta in H.
    destruct (length (read_lines E) <? 1)%nat; [done|]. by injection H as <- _. }
  destruct tokens as [[|t1 [|t2 ts]]|].
  - intros H. left. by eapply Hstdin.
  - intros [= <- _]. right. left. by exists t1.
  - unfold acquire_commands.
    change (length (t1 :: t2 :: ts) =? 1)%nat with false. cbv iota zeta.
    intros [= <- _]. right. right. eexists. split; [done|].
    destruct (String.eqb t1 "--"); cbn [fmap list_fmap];
      apply join_nonempty, shlex_quote_nonempty.
  - intros H. left. by eapply Hstdin.
Qed.

(** A job made from a command has that command and, for the rest, what the
    template has. *)
Lemma command_job (jt : gmap string json) c :
  ∃ d, deep_merge (JDict jt) (JDict {[ "command" := JStr c ]}) = JDict d
       ∧ d !! "command" = Some (JStr c)
       ∧ ∀ k, k ≠ "command" → d !! k = jt !! k.
Proof.
  eexists. split; [apply deep_merge_dict|]. split.
  - rewrite lookup_union_with, lookup_singleton_eq.
    by destruct (jt !! "command") as [[]|].
  - intros k Hk. rewrite lookup_union_with, lookup_singleton_ne by done.
    by destruct (jt !! k).
Qed.

Lemma build_jobs_commands_inv raw cmd jt w jobs w' :
  truthy raw = false →
  build_jobs E raw cmd jt w = (Ok jobs, w') →
  ∃ commands jt2,
    jobs = (λ c, deep_merge (JDict jt2) (JDict {[ "command" := JStr c ]}))
           <$> commands
    ∧ (∀ k, k ≠ "env" → jt2 !! k = jt !! k)
    ∧ (truthy (dict_get "uuid" jt) = true → (length commands ≤ 1)%nat)
    ∧ (∀ c, c ∈ commands → c = "" →
            "" ∈ read_lines E ∨ cmd = JList [JStr ""]).
Proof.
  intros Hr. unfold build_jobs. rewrite Hr.
  intros (tokens & w1 & Ht & H)%bind_inv_Ok.
  apply bind_inv_Ok in H as (commands & w2 & Ha & H).
  destruct (truthy (dict_get "uuid" jt) && (1 <? length commands)%nat) eqn:Hu;
    [done|].
  apply bind_inv_Ok in H as (jt2 & w3 & He & H). injection H as <- <-.
  exists commands, jt2. split_and!.
  - done.
  - intros k Hk. destruct (truthy (dict_get "env" jt)).
    + apply bind_inv_Ok in He as (env & w4 & _ & He). injection He as <- _.
      by rewrite lookup_insert_ne.
    + by injection He as <- _.
  - intros Hj. rewrite Hj in Hu. rewrite andb_true_l in Hu.
    apply Nat.ltb_ge in Hu. lia.
  - intros c Hc ->. unfold lift in Ht. injection Ht as Ht _.
    apply acquire_commands_inv in Ha as [->|[(t & -> & ->)|(c & -> & Hne)]].
    + by left.
    + right. apply list_elem_of_singleton in Hc as <-.
      by apply as_tokens_single.
    + by apply list_elem_of_singleton in Hc as <-.
Qed.

Lemma draws_before_all jobs i :
  (∀ job, job ∈ jobs → lacks_id job = true) →
  (i ≤ length jobs)%nat → draws_before jobs i = i.
Proof.
  unfold draws_before. revert i. induction jobs as [|job jobs IH]; intros i H Hi.
  - by replace i with 0%nat by (cbn in Hi; lia).
  - destruct i as [|i]; [done|]. cbn [take]. rewrite filter_cons.
    rewrite decide_True by (rewrite H; [done|left]). cbn.
    rewrite IH; [done| |cbn in Hi; lia].
    intros job' ?. apply H. by right.
Qed.

End Invariant.

(** C6, amended. Outside raw mode, and with a generator that never gives
    the same identifier twice, a batch that has been assembled has no two
    jobs with the same identifier; when there is a group, every job refers
    to it by the group's identifier; and every job has a command, which is
    empty only when an empty line was typed or the single token of the
    command line was empty. *)
Theorem assemble_batch_invariant (E : Env) args w jobs group w' :
  (∀ i j, uuid4 E i = uuid4 E j → i = j) →
  truthy (dict_get "raw" args) = false →
  assemble E args w = (Ok (jobs, group), w') →
  NoDup (job_id <$> jobs)
  ∧ (∀ gd, group = JDict gd → ∀ job, job ∈ jobs →
       ∃ d v, job = JDict d ∧ d !! "group" = Some v ∧ gd !! "uuid" = Some v)
  ∧ (∀ job, job ∈ jobs →
       ∃ d c, job = JDict d ∧ d !! "command" = Some (JStr c)
              ∧ (c = "" → "" ∈ read_lines E
                          ∨ dict_get "command" args = JList [JStr ""])).
Proof.
  intros Hinj Hraw
    (prefix & jt0 & jt & w1 & pre & w2 & Ht & Hp & Hg & Hb & Hm)%assemble_inv.
  apply take_options_inv in Ht as (_ & _ & _ & Hu0 & Hc0).
  destruct (resolve_group_Ok E jt0 w) as (g & jt' & w1' & Hg' & Hk & Hgd).
  rewrite Hg in Hg'. injection Hg' as <- <- <-.
  apply build_jobs_commands_inv in Hb as (commands & jt2 & -> & Hk2 & Hlen & Hempty);
    [|done].
  apply mapM_finish_job_inv in Hm as (Hl & _ & Hi).
  rewrite length_fmap in Hl.
  assert (∀ i job, jobs !! i = Some job →
            ∃ c d d', commands !! i = Some c ∧ job = JDict d'
              ∧ d !! "command" = Some (JStr c)
              ∧ (∀ k, k ≠ "command" → d !! k = jt2 !! k)
              ∧ finished E prefix
                  (drawn w2 + draws_before
                     ((λ c, deep_merge (JDict jt2)
                              (JDict {[ "command" := JStr c ]})) <$> commands) i)
                  d d') as Hjob.
  { intros i job Hj.
    destruct (lookup_lt_is_Some_2 commands i) as [c Hc].
    { rewrite <-Hl. by eapply lookup_lt_Some. }
    destruct (command_job jt2 c) as (d & Hd & Hdc & Hdk).
    destruct (Hi i (JDict d)) as (d0 & d' & [= <-] & Hj' & Hf).
    { by rewrite list_lookup_fmap, Hc, <-Hd. }
    rewrite Hj in Hj'. injection Hj' as ->. by exists c, d, d'. }
  split_and!.
  - apply NoDup_alt. intros i j x Hx Hy.
    rewrite list_lookup_fmap in Hx, Hy.
    destruct (jobs !! i) as [ji|] eqn:Hji; [|done].
    destruct (jobs !! j) as [jj|] eqn:Hjj; [|done].
    cbn in Hx, Hy. injection Hx as Hx. injection Hy as Hy.
    assert (job_id ji = job_id jj) as Heq by congruence. clear Hx Hy.
    destruct (truthy (dict_get "uuid" jt)) eqn:Hu.
    + apply lookup_lt_Some in Hji, Hjj. specialize (Hlen eq_refl). lia.
    + destruct (Hjob i ji Hji) as (ci & di & di' & Hci & -> & _ & Hki & Hfi).
      destruct (Hjob j jj Hjj) as (cj & dj & dj' & Hcj & -> & _ & Hkj & Hfj).
      assert (∀ job, job ∈ (λ c, deep_merge (JDict jt2)
                                   (JDict {[ "command" := JStr c ]})) <$> commands
                     → lacks_id job = true) as Hlack.
      { intros job (c & -> & _)%list_elem_of_fmap.
        destruct (command_job jt2 c) as (d & -> & _ & Hdk). cbn.
        unfold dict_get in *. rewrite Hdk, Hk2 by done. by rewrite Hu. }
      rewrite draws_before_all in Hfi, Hfj;
        [|done|rewrite length_fmap; apply lookup_lt_Some in Hcj; lia
         |done|rewrite length_fmap; apply lookup_lt_Some in Hci; lia].
      destruct Hfi as (Hfi & _), Hfj as (Hfj & _).
      assert (truthy (dict_get "uuid" di) = false) as Hdi.
      { unfold dict_get in *. by rewrite Hki, Hk2, Hu. }
      assert (truthy (dict_get "uuid" dj) = false) as Hdj.
      { unfold dict_get in *. by rewrite Hkj, Hk2, Hu. }
      rewrite Hdi in Hfi. rewrite Hdj in Hfj. cbn in Heq.
      unfold dict_get in Heq. rewrite Hfi, Hfj in Heq. cbn in Heq.
      injection Heq as Heq. apply Hinj in Heq. lia.
  - intros gd -> job (i & Hj)%list_elem_of_lookup.
    destruct (Hjob i job Hj) as (c & d & d' & _ & -> & _ & Hdk & Hf).
    destruct (Hgd gd eq_refl) as (v & Hv & Hgv).
    exists d', v. split_and!; [done| |done].
    destruct Hf as (_ & _ & _ & Hother).
    by rewrite Hother, Hdk, Hk2.
  - intros job (i & Hj)%list_elem_of_lookup.
    destruct (Hjob i job Hj) as (c & d & d' & Hc & -> & Hdc & _ & Hf).
    destruct Hf as (_ & _ & Hcmd & _).
    assert (c ∈ commands) as Hin by (by eapply list_elem_of_lookup_2).
    destruct (truthy prefix).
    + destruct Hcmd as (c0 & Hc0' & Hcmd). rewrite Hdc in Hc0'.
      injection Hc0' as <-. eexists d', _. split_and!; [done..|].
      cbn [fmt]. intros Hs. apply (Hempty c Hin).
      by destruct (fmt E prefix).
    + exists d', c. split_and!; [done|congruence|]. by apply Hempty.
Qed.

Lemma numbered_uuid_inj i j :
  Sample.numbered_uuid i = Sample.numbered_uuid j → i = j.
Proof.
  unfold Sample.numbered_uuid. intros H%(inj (String.app "uuid-")).
  by apply (inj pretty).
Qed.

(** C6, on two commands typed on standard input, in a named group. *)
Lemma assemble_batch_invariant_witness :
  let E := Sample.env [] ["echo a"; "echo b"] "" in
  let args : gmap string json :=
    {[ "command-prefix" := JStr ""; "group-name" := JStr "nightly" ]} in
  ∃ jobs group w',
    assemble E args Sample.start = (Ok (jobs, group), w')
    ∧ NoDup (job_id <$> jobs)
    ∧ (∀ gd, group = JDict gd → ∀ job, job ∈ jobs →
         ∃ d v, job = JDict d ∧ d !! "group" = Some v ∧ gd !! "uuid" = Some v)
    ∧ (∀ job, job ∈ jobs →
         ∃ d c, job = JDict d ∧ d !! "command" = Some (JStr c)
                ∧ (c = "" → "" ∈ read_lines E
                            ∨ dict_get "command" args = JList [JStr ""])).
Proof.
  intros E args.
  destruct (assemble E args Sample.start) as [[[jobs group]|e] w'] eqn:Ha;
    [|by vm_compute in Ha].
  exists jobs, group, w'. split; [reflexivity|].
  apply (assemble_batch_invariant E args Sample.start jobs group w').
  - apply numbered_uuid_inj.
  - vm_compute. reflexivity.
  - exact Ha.
Defined.

(** C6 as it is worded fails.  In raw mode, the identifier of the
    configuration goes to both jobs of a raw list of two, and neither job
    has a command.  Outside raw mode, a single empty token on the command
    line is the command of the job. *)
Lemma batch_invariant_fails :
  let E := Sample.env [] [] "[{}, {}]" in
  let application : json :=
    JDict {[ "name" := JStr "cook-scheduler-cli"; "version" := JStr "1.0" ]} in
  let raw_args : gmap string json :=
    {[ "raw" := JBool true; "uuid" := JStr Sample.u1;
       "command-prefix" := JStr "" ]} in
  let raw_job : json :=
    JDict {[ "uuid" := JStr Sample.u1; "name" := JStr "alice_job";
             "application" := application ]} in
  let args : gmap string json :=
    {[ "command" := JList [JStr ""]; "command-prefix" := JStr "" ]} in
  let job : json :=
    JDict {[ "command" := JStr ""; "uuid" := JStr "uuid-0";
             "name" := JStr "alice_job"; "application" := application ]} in
  ((assemble E raw_args Sample.start).1 = Ok ([raw_job; raw_job], JNull)
   ∧ ¬ NoDup (job_id <$> [raw_job; raw_job])
   ∧ ¬ batch_invariant [raw_job; raw_job] JNull)
  ∧ ((assemble E args Sample.start).1 = Ok ([job], JNull)
     ∧ ¬ batch_invariant [job] JNull).
Proof.
  intros E application raw_args raw_job args job.
  assert (¬ NoDup (job_id <$> [raw_job; raw_job])) as Hdup.
  { intros [Hn _]%NoDup_cons. apply Hn. left. }
  split; split_and!.
  - vm_compute. reflexivity.
  - done.
  - by intros (_ & ? & _).
  - vm_compute. reflexivity.
  - intros (Hc & _). destruct (Hc job) as (d & c & Hd & Hl & Hne); [left|].
    injection Hd as <-. vm_compute in Hl. by injection Hl as <-.
Qed.

(** ** The loop over the clusters, whatever the transport answers *)

Section Loop.
Context (E : Env) (jobs : list json) (group : json).

Local Abbreviation rq := (request_for jobs group).

Lemma attempt_crash_state c w r e :
  http_post E (sent w) (rq c) = Responded r →
  status_code r ≠ 201 →
  failure_reason E r = Raise e →
  ∃ w', attempt E jobs group c w = (Raise TypeError, w')
        ∧ sent w' = sent w ++ [rq c]
        ∧ counted w' = counted w ∧ drawn w' = drawn w.
Proof.
  intros H Hs Hr.
  unfold attempt, try_except, print_submit_result, post, print_info,
    metrics_inc, lift, mbind, M_bind, mret, M_ret; cbn.
  unfold request_for in H. rewrite H. cbn.
  apply Z.eqb_neq in Hs. rewrite Hs, Hr. cbn.
  apply failure_reason_raises in Hr as ->. eauto.
Qed.

(** One turn makes one request, draws no identifier, and counts the metric
    exactly when it returns 0. *)
Lemma attempt_cases c w :
  ∃ r w', attempt E jobs group c w = (r, w')
    ∧ turn_end r
    ∧ sent w' = sent w ++ [rq c]
    ∧ drawn w' = drawn w
    ∧ counted w'
      = counted w ++ match r with
                     | Ok (Some 0) => [("command.submit.jobs", length jobs)]
                     | _ => []
                     end.
Proof.
  destruct (http_post E (sent w) (rq c)) as [r| |] eqn:H.
  - destruct (decide (status_code r = 201)) as [Hs|Hs].
    + destruct (attempt_created E jobs group c w r H Hs)
        as (w' & Ha & Hsent & _ & Hc & Hd).
      exists (Ok (Some 0)), w'. split_and!; [done|constructor|done..].
    + destruct (failure_reason E r) as [reason|e] eqn:Hf.
      * destruct (attempt_rejected E jobs group c w r reason H Hs Hf)
          as (w' & Ha & Hsent & Hc & Hd).
        exists (Ok None), w'. split_and!; [done|constructor|done..|].
        by rewrite app_nil_r.
      * destruct (attempt_crash_state c w r e H Hs Hf)
          as (w' & Ha & Hsent & Hc & Hd).
        exists (Raise TypeError), w'. split_and!; [done|constructor|done..|].
        by rewrite app_nil_r.
  - destruct (attempt_timed_out E jobs group c w H)
      as (w' & Ha & Hsent & _ & Hc & Hd).
    exists (Ok (Some 1)), w'. split_and!; [done|constructor|done..|].
    by rewrite app_nil_r.
  - destruct (attempt_unreachable E jobs group c w H)
      as (w' & Ha & Hsent & Hc & Hd).
    exists (Ok None), w'. split_and!; [done|constructor|done..|].
    by rewrite app_nil_r.
Qed.

(** The loop asks the clusters of some initial stretch of the list, one
    request each and in order; it runs through the whole list exactly when
    it ends without a result. *)
Lemma federated_loop_cases clusters w :
  ∃ r w' n, federated_loop E jobs group clusters w = (r, w')
    ∧ turn_end r
    ∧ (n ≤ length clusters)%nat
    ∧ (r = Ok None → n = length clusters)
    ∧ (r ≠ Ok None → (0 < n)%nat)
    ∧ sent w' = sent w ++ (rq <$> take n clusters)
    ∧ drawn w' = drawn w
    ∧ counted w'
      = counted w ++ match r with
                     | Ok (Some 0) => [("command.submit.jobs", length jobs)]
                     | _ => []
                     end.
Proof.
  revert w. induction clusters as [|c clusters IH]; intros w.
  - exists (Ok None), w, 0%nat.
    split_and!; [done|constructor|done..|by rewrite app_nil_r|done|by rewrite app_nil_r].
  - destruct (attempt_cases c w) as (r & w1 & Ha & Ht & Hs & Hd & Hc).
    cbn [federated_loop]. unfold mbind, M_bind at 1. rewrite Ha.
    destruct Ht.
    + destruct (IH w1) as (r' & w' & n & Hl & Ht' & Hn & Hall & Hpos & Hs' & Hd' & Hc').
      exists r', w', (S n). split_and!; try done.
      * cbn. lia.
      * intros Hr. cbn. by rewrite Hall.
      * intros _. lia.
      * rewrite Hs', Hs. cbn. by rewrite <-app_assoc.
      * congruence.
      * rewrite Hc', Hc. by rewrite app_nil_r.
    + exists (Ok (Some 0)), w1, 1%nat. cbn [take]. rewrite take_0.
      split_and!; first [done | cbn; lia | constructor].
    + exists (Ok (Some 1)), w1, 1%nat. cbn [take]. rewrite take_0.
      split_and!; first [done | cbn; lia | constructor].
    + exists (Raise TypeError), w1, 1%nat. cbn [take]. rewrite take_0.
      split_and!; first [done | cbn; lia | constructor].
Qed.

End Loop.

(** ** The reason of a failed submission *)

Section Reason.
Context (E : Env).

Lemma contains_spec sub s :
  PyStr.contains sub s = true ↔ ∃ j, PyStr.occurs_at sub s j.
Proof.
  unfold PyStr.contains. destruct (PyStr.find sub s) as [i|] eqn:Hf.
  - split; [intros _|done].
    apply PyStrFacts.find_Some in Hf as ((post & Hp) & Hl & _).
    exists i, (PyStr.take i s), post. done.
  - split; [done|]. intros [j Hj]. exfalso. by eapply PyStrFacts.find_None.
Qed.

Lemma errors_is_error s :
  PyStr.contains "errors" s = true → PyStr.contains "error" s = true.
Proof.
  rewrite !contains_spec. intros (j & pre & post & -> & Hl).
  exists j, pre, ("s" +:+ post). done.
Qed.

Lemma has_string_spec k (l : list json) :
  existsb (λ v, match v with JStr s => String.eqb s k | _ => false end) l = true
  ↔ JStr k ∈ l.
Proof.
  rewrite existsb_exists. split.
  - intros (v & Hv%list_elem_of_In & Hk). destruct v; try done.
    by apply String.eqb_eq in Hk as ->.
  - intros Hk. exists (JStr k). split; [by apply list_elem_of_In|].
    apply String.eqb_refl.
Qed.

End Reason.

(** X1. Whatever the clusters, the transport and the answers, the requests
    that [submit_federated] makes are those for an initial stretch of the
    list of clusters, one request for each and in the order of the list; no
    identifier is drawn. *)
Theorem submit_federated_requests_prefix (E : Env) clusters jobs group w :
  ∃ n, (n ≤ length clusters)%nat
       ∧ sent (submit_federated E clusters jobs group w).2
         = sent w ++ (request_for jobs group <$> take n clusters)
       ∧ drawn (submit_federated E clusters jobs group w).2 = drawn w.
Proof.
  destruct (federated_loop_cases E jobs group clusters w)
    as (r & w' & n & Hl & Ht & Hn & _ & _ & Hs & Hd & _).
  exists n. unfold submit_federated, mbind, M_bind. rewrite Hl.
  by destruct Ht.
Qed.

(** X2. [submit_federated] ends in one of four ways: it returns 0, it
    returns 1, it raises the aggregate failure, or it raises [TypeError].
    The exceptions of the transport never reach the caller. *)
Theorem submit_federated_results (E : Env) clusters jobs group w :
  (submit_federated E clusters jobs group w).1 = Ok 0
  ∨ (submit_federated E clusters jobs group w).1 = Ok 1
  ∨ (submit_federated E clusters jobs group w).1 = Raise (all_failed E)
  ∨ (submit_federated E clusters jobs group w).1 = Raise TypeError.
Proof.
  destruct (federated_loop_cases E jobs group clusters w)
    as (r & w' & n & Hl & Ht & _).
  unfold submit_federated, mbind, M_bind. rewrite Hl.
  destruct Ht; cbn; auto.
Qed.

(** X3. The metric [command.submit.jobs] is counted once, by the number of
    jobs, when [submit_federated] returns 0, and not at all in every other
    case. *)
Theorem submit_federated_metric (E : Env) clusters jobs group w :
  counted (submit_federated E clusters jobs group w).2
  = counted w ++ match (submit_federated E clusters jobs group w).1 with
                 | Ok 0 => [("command.submit.jobs", length jobs)]
                 | _ => []
                 end.
Proof.
  destruct (federated_loop_cases E jobs group clusters w)
    as (r & w' & n & Hl & Ht & _ & _ & _ & _ & _ & Hc).
  unfold submit_federated, mbind, M_bind. rewrite Hl.
  by destruct Ht.
Qed.

(** X4. When [submit_federated] raises the aggregate failure, every
    cluster of the list has been asked, once and in order. *)
Theorem submit_federated_exhausted (E : Env) clusters jobs group w :
  (submit_federated E clusters jobs group w).1 = Raise (all_failed E) →
  sent (submit_federated E clusters jobs group w).2
  = sent w ++ (request_for jobs group <$> clusters).
Proof.
  destruct (federated_loop_cases E jobs group clusters w)
    as (r & w' & n & Hl & Ht & Hn & Hall & _ & Hs & _).
  unfold submit_federated, mbind, M_bind. rewrite Hl.
  destruct Ht; cbn; try done. intros _.
  rewrite Hs, (Hall eq_refl). by rewrite firstn_all.
Qed.

Lemma submit_federated_exhausted_witness :
  sent (submit_federated
          (Sample.env [Unreachable;
                       Responded {| status_code := 400; text := "no";
                                    json_body := None |}] [] "")
          [Sample.c1; Sample.c2] [] JNull Sample.start).2
  = sent Sample.start ++ (request_for [] JNull <$> [Sample.c1; Sample.c2]).
Proof.
  apply submit_federated_exhausted. vm_compute. reflexivity.
Defined.

(** X5, on two clusters: the first cannot be reached and the second
    answers 400 with a body that is no JSON. *)
Lemma submit_federated_all_passed_over_witness :
  ∃ w', submit_federated
          (Sample.env [Unreachable;
                       Responded {| status_code := 400; text := "no";
                                    json_body := None |}] [] "")
          [Sample.c1; Sample.c2] [] JNull Sample.start
        = (Raise (all_failed
                    (Sample.env [Unreachable;
                                 Responded {| status_code := 400; text := "no";
                                              json_body := None |}] [] "")), w')
        ∧ sent w' = sent Sample.start
                    ++ (request_for [] JNull <$> [Sample.c1; Sample.c2]).
Proof.
  apply submit_federated_all_passed_over.
  intros [|[|i]] c Hi; simplify_eq/=; reflexivity.
Defined.

(** X6. On a body that decodes to a mapping the reason is always found:
    the value of [errors], serialised, when the key is there, whether or not
    [error] is there too; else the value of [error] as it prints; else the
    whole body, serialised. *)
Theorem failure_reason_of_mapping (E : Env) status body (d : gmap string json) :
  failure_reason E {| status_code := status; text := body;
                      json_body := Some (JDict d) |}
  = Ok match d !! "errors", d !! "error" with
       | Some errors, _ => json_dumps E errors
       | None, Some error => fmt E error
       | None, None => json_dumps E (JDict d)
       end.
Proof.
  unfold failure_reason. cbn.
  destruct (d !! "errors") as [v|] eqn:H1.
  - by rewrite bool_decide_eq_true_2 by done.
  - rewrite bool_decide_eq_false_2 by (by intros [? ?]). cbn.
    destruct (d !! "error") as [v|] eqn:H2.
    + by rewrite bool_decide_eq_true_2 by done.
    + by rewrite bool_decide_eq_false_2 by (by intros [? ?]).
Qed.

(** X7. The reason cannot be read, and [TypeError] is raised, exactly when
    the body decodes to something that is no mapping and is a number, a
    boolean, [None], a string with [error] in it, or a list with the string
    [errors] or [error] in it.  A body that does not decode gives its text
    followed by a newline. *)
Theorem failure_reason_raises_iff (E : Env) (r : response) :
  (failure_reason E r = Raise TypeError
   ↔ ∃ data, json_body r = Some data ∧ unreadable data)
  ∧ (json_body r = None → failure_reason E r = Ok (text r +:+ nl)).
Proof.
  split; [|unfold failure_reason; by intros ->].
  unfold failure_reason. destruct (json_body r) as [data|]; [|split; [done|]].
  2: { by intros (? & ? & ?). }
  split.
  - intros H. exists data. split; [done|]. destruct data; cbn in *; try done.
    + apply (proj1 (contains_spec _ _)).
      destruct (PyStr.contains "errors" s) eqn:H1; [by apply errors_is_error|].
      by destruct (PyStr.contains "error" s).
    + destruct (existsb _ l) eqn:H1;
        [left; by apply (proj1 (has_string_spec _ _))|].
      right. apply (proj1 (has_string_spec _ _)).
      destruct (existsb _ l) eqn:H2 in H |- *; done.
    + destruct (d !! "errors") as [v|] eqn:H1.
      * by rewrite bool_decide_eq_true_2 in H by done.
      * rewrite bool_decide_eq_false_2 in H by (by intros [? ?]).
        destruct (d !! "error") as [v|] eqn:H2.
        -- by rewrite bool_decide_eq_true_2 in H by done.
        -- by rewrite bool_decide_eq_false_2 in H by (by intros [? ?]).
  - intros (? & [= <-] & Hu). destruct data; cbn in *; try done.
    + apply (proj2 (contains_spec _ _)) in Hu.
      destruct (PyStr.contains "errors" s); [done|]. by rewrite Hu.
    + destruct (existsb _ l) eqn:H1; [done|].
      destruct Hu as [Hu|Hu]; apply (proj2 (has_string_spec _ _)) in Hu;
        [congruence|].
      by rewrite Hu.
Qed.

Lemma failure_reason_raises_iff_witness :
  failure_reason (Sample.env [] [] "")
    {| status_code := 502; text := "<html>"; json_body := None |}
  = Ok ("<html>" +:+ nl).
Proof.
  apply (proj2 (failure_reason_raises_iff (Sample.env [] [] "")
                  {| status_code := 502; text := "<html>"; json_body := None |})).
  reflexivity.
Defined.

(** ** Quotes around a body, and splitting at a character *)

Module PyStrMore.
Import PyStr PyStrFacts.

Lemma lstrip_copies c n s : lstrip c (copies n c +:+ s) = lstrip c s.
Proof.
  induction n as [|n IH]; [done|]. cbn [copies]. rewrite app_cons. cbn.
  by rewrite Strings.Ascii.eqb_refl.
Qed.

Lemma lstrip_only_copies c n : lstrip c (copies n c) = "".
Proof. rewrite <-(app_nil_r (copies n c)). apply lstrip_copies. Qed.

Lemma rstrip_copies c s n : rstrip c (s +:+ copies n c) = rstrip c s.
Proof.
  unfold rstrip. by rewrite rev_app, rev_copies, lstrip_copies.
Qed.

Lemma strip_copies c n s m :
  strip c (copies n c +:+ s +:+ copies m c) = strip c s.
Proof.
  unfold strip. rewrite lstrip_copies.
  induction s as [|a s IH].
  - change ("" +:+ copies m c) with (copies m c).
    by rewrite lstrip_only_copies.
  - rewrite app_cons. cbn [lstrip].
    destruct (Strings.Ascii.eqb a c); [done|].
    by rewrite <-app_cons, rstrip_copies.
Qed.

(** [split_once] cuts at the first occurrence of the character. *)
Lemma split_once_Some c s k v :
  split_once c s = Some (k, v) →
  s = k +:+ String c v
  ∧ Forall (λ a, a ≠ c) (String.list_ascii_of_string k).
Proof.
  revert k. induction s as [|a s IH]; intros k; [done|]. cbn.
  destruct (Strings.Ascii.eqb_spec a c) as [->|Hne].
  - intros [= <- <-]. by split.
  - destruct (split_once c s) as [[k' v']|]; [|done]. cbn.
    intros [= <- <-]. destruct (IH k' eq_refl) as [-> Hk].
    split; [done|]. cbn. by constructor.
Qed.

Lemma split_once_None c s :
  split_once c s = None →
  Forall (λ a, a ≠ c) (String.list_ascii_of_string s).
Proof.
  induction s as [|a s IH]; [by constructor|]. cbn.
  destruct (Strings.Ascii.eqb_spec a c) as [->|Hne]; [done|].
  destruct (split_once c s) as [[k' v']|]; [done|].
  intros _. constructor; [done|]. by apply IH.
Qed.

Lemma split_once_app c k v :
  Forall (λ a, a ≠ c) (String.list_ascii_of_string k) →
  split_once c (k +:+ String c v) = Some (k, v).
Proof.
  induction k as [|a k IH].
  - intros _. change ("" +:+ String c v) with (String c v). cbn.
    by rewrite Strings.Ascii.eqb_refl.
  - cbn [String.list_ascii_of_string]. intros [Ha Hk]%Forall_cons.
    rewrite app_cons. cbn [split_once].
    destruct (Strings.Ascii.eqb_spec a c) as [->|_]; [done|].
    by rewrite IH.
Qed.

End PyStrMore.

(** X8. Quote characters in front of a 201 body and behind it, however
    many, do not change the identifiers read off it. *)
Theorem extract_uuids_quotes (E : Env) (n m : nat) (body : string) :
  extract_uuids E
    (PyStr.copies n "034" +:+ body +:+ PyStr.copies m "034")
  = extract_uuids E body.
Proof. unfold extract_uuids. by rewrite PyStrMore.strip_copies. Qed.

(** ** Running the assembly forward *)

Section Forward.
Context (E : Env).

Lemma take_options_template args prefix :
  args !! "command-prefix" = Some prefix →
  ∃ jt, take_options E args
        = Ok (dict_get "raw" args, dict_get "command" args, prefix, jt)
    ∧ jt !! "application"
      = Some (JDict {[ "name" := default (JStr "cook-scheduler-cli")
                                   (args !! "application-name");
                       "version" := default (JStr (VERSION E))
                                      (args !! "application-version") ]})
    ∧ jt !! "raw" = None ∧ jt !! "command" = None
    ∧ jt !! "command-prefix" = None
    ∧ jt !! "application-name" = None ∧ jt !! "application-version" = None
    ∧ ∀ k, k ≠ "raw" → k ≠ "command" → k ≠ "command-prefix" →
           k ≠ "application-name" → k ≠ "application-version" →
           k ≠ "application" → jt !! k = args !! k.
Proof.
  intros Hp. unfold take_options, dict_pop, py_getitem. cbn.
  rewrite !lookup_delete_ne, Hp by done. cbn.
  eexists. split; [done|]. split_and!.
  - by rewrite lookup_insert_eq.
  - rewrite lookup_insert_ne by done. rewrite !lookup_delete_ne by done.
    apply lookup_delete_eq.
  - rewrite lookup_insert_ne by done. rewrite !lookup_delete_ne by done.
    apply lookup_delete_eq.
  - rewrite lookup_insert_ne by done. rewrite !lookup_delete_ne by done.
    apply lookup_delete_eq.
  - rewrite lookup_insert_ne by done. rewrite !lookup_delete_ne by done.
    apply lookup_delete_eq.
  - rewrite lookup_insert_ne by done. apply lookup_delete_eq.
  - intros k ??????. rewrite lookup_insert_ne by done.
    by rewrite !lookup_delete_ne.
Qed.

Lemma take_options_missing args :
  args !! "command-prefix" = None →
  take_options E args = Raise (KeyError "command-prefix").
Proof.
  intros Hp. unfold take_options, dict_pop, py_getitem. cbn.
  by rewrite !lookup_delete_ne, Hp.
Qed.

(** Group resolution prints and sends nothing, and draws an identifier
    only for a named group without one. *)
Lemma resolve_group_run jt w :
  ∃ g jt' w', resolve_group E jt w = (Ok (g, jt'), w')
    ∧ sent w' = sent w ∧ printed w' = printed w
    ∧ jt' !! "group-name" = None
    ∧ (∀ k, k ≠ "group" → k ≠ "group-name" → jt' !! k = jt !! k)
    ∧ match jt !! "group-name" with
      | None => g = JNull ∧ jt' !! "group" = jt !! "group" ∧ w' = w
      | Some name =>
          ∃ v, g = JDict {[ "name" := name; "uuid" := v ]}
               ∧ jt' !! "group" = Some v
               ∧ match jt !! "group" with
                 | Some g0 => v = g0 ∧ w' = w
                 | None => v = JStr (uuid4 E (drawn w))
                 end
      end.
Proof.
  unfold resolve_group. destruct (jt !! "group-name") as [gn|] eqn:Hgn.
  - destruct (jt !! "group") as [v|] eqn:Hg; cbn.
    + do 3 eexists. split; [done|]. split_and!; try done.
      * apply lookup_delete_eq.
      * intros k ??. by rewrite lookup_delete_ne.
      * exists v. unfold dict_get. rewrite Hg. split_and!; try done.
        by rewrite lookup_delete_ne.
    + do 3 eexists. split; [done|]. split_and!; try done.
      * apply lookup_delete_eq.
      * intros k ??. rewrite lookup_delete_ne by done.
        by rewrite lookup_insert_ne.
      * eexists. unfold dict_get. rewrite lookup_insert_eq. split_and!; try done.
        rewrite lookup_delete_ne by done. by rewrite lookup_insert_eq.
  - do 3 eexists. split; [done|]. by split_and!.
Qed.

Lemma assemble_run args raw cmd prefix jt0 w g jt w1 jobs w2 r w3 :
  take_options E args = Ok (raw, cmd, prefix, jt0) →
  resolve_group E jt0 w = (Ok (g, jt), w1) →
  build_jobs E raw cmd jt w1 = (Ok jobs, w2) →
  mapM (finish_job E prefix) jobs w2 = (r, w3) →
  assemble E args w
  = (match r with Ok jobs' => Ok (jobs', g) | Raise e => Raise e end, w3).
Proof.
  intros Ht Hg Hb Hm. unfold assemble.
  erewrite bind_Ok; [|unfold lift; by rewrite Ht]. cbv beta iota.
  erewrite bind_Ok by done. cbv beta iota.
  erewrite bind_Ok by done.
  destruct r as [jobs'|e].
  - by erewrite bind_Ok.
  - by erewrite bind_Raise.
Qed.

(** When assembly succeeds, [submit] goes on with [submit_federated]. *)
Lemma submit_run clusters args w jobs group w1 :
  clusters ≠ [] →
  assemble E args w = (Ok (jobs, group), w1) →
  submit E clusters args w = submit_federated E clusters jobs group w1.
Proof.
  intros Hc Ha. unfold submit. destruct clusters as [|c cs]; [done|]. cbn.
  erewrite bind_Ok by done. by erewrite bind_Ok by exact Ha.
Qed.

End Forward.

(** ** Failures of the assembly *)

Section Failures.
Context (E : Env).

Lemma tokens_of_strings (l : list string) :
  mapM (λ t, match t with JStr s => Ok s | _ => Raise TypeError end)
    (JStr <$> l) = Ok l.
Proof. induction l as [|x l IH]; [done|]. cbn. by rewrite IH. Qed.

Lemma as_tokens_strings t ts :
  as_tokens (JList (JStr <$> t :: ts)) = Ok (Some (t :: ts)).
Proof.
  unfold as_tokens. rewrite fmap_cons. cbn [truthy].
  rewrite <-fmap_cons. by rewrite tokens_of_strings.
Qed.

Lemma acquire_commands_tokens t ts w :
  acquire_commands E (Some (t :: ts)) w = (Ok [command_of_tokens t ts], w).
Proof. by destruct ts. Qed.

Lemma split_once_free c s : free_of c s → PyStr.split_once c s = None.
Proof.
  unfold free_of. induction s as [|a s IH]; [done|]. cbn.
  intros [Ha Hs]%Forall_cons.
  destruct (Strings.Ascii.eqb_spec a c) as [->|_]; [done|]. by rewrite IH.
Qed.

(** One entry without [=] makes the conversion of the environment fail. *)
Lemma env_dict_malformed (es : list string) e :
  e ∈ es → free_of "=" e →
  ∃ msg, env_dict (JList (JStr <$> es)) = Raise (ValueError msg).
Proof.
  intros He Hfree. unfold env_dict.
  enough (∃ msg, mapM env_pair (JStr <$> es) = Raise (ValueError msg))
    as [msg ->] by by exists msg.
  induction es as [|x es IH]; [by apply elem_of_nil in He|]. cbn.
  destruct (PyStr.split_once "=" x) as [[k v]|] eqn:Hx; cbn.
  - apply elem_of_cons in He as [->|He].
    { by rewrite split_once_free in Hx. }
    destruct (IH He) as [msg ->]. by exists msg.
  - by eexists.
Qed.

End Failures.

(** X9. Without the option [command-prefix] in the configuration the
    invocation ends with [KeyError], whatever the mode; nothing is read,
    printed, drawn or sent. *)
Theorem submit_missing_command_prefix (E : Env) clusters args w :
  clusters ≠ [] →
  args !! "command-prefix" = None →
  submit E clusters args w = (Raise (KeyError "command-prefix"), w).
Proof.
  intros Hc Hp. unfold submit. destruct clusters as [|c cs]; [done|]. cbn.
  erewrite bind_Ok by done. erewrite bind_Raise; [done|].
  unfold assemble. erewrite bind_Raise; [done|].
  unfold lift. by rewrite take_options_missing.
Qed.

Lemma submit_missing_command_prefix_witness :
  submit (Sample.env [] [] "") [Sample.c1] {[ "mem" := JInt 128 ]} Sample.start
  = (Raise (KeyError "command-prefix"), Sample.start).
Proof.
  apply submit_missing_command_prefix; [discriminate|].
  vm_compute. reflexivity.
Defined.

(** X10. In raw mode, tokens on the command line are refused: the
    invocation ends with the exception that says so, standard input is not
    read, nothing is printed and no request is made. *)
Theorem submit_raw_with_command (E : Env) clusters args w :
  clusters ≠ [] →
  is_Some (args !! "command-prefix") →
  truthy (dict_get "raw" args) = true →
  truthy (dict_get "command" args) = true →
  ∃ w', submit E clusters args w
        = (Raise (Exception
             "You cannot specify a command at the command line when using --raw/-r."),
           w')
        ∧ sent w' = sent w ∧ printed w' = printed w.
Proof.
  intros Hc [prefix Hp] Hr Hcmd.
  destruct (take_options_template E args prefix Hp) as (jt0 & Ht & _).
  destruct (resolve_group_run E jt0 w) as (g & jt & w1 & Hg & Hs & Hpr & _).
  exists w1. split; [|done].
  apply submit_assembly_raises; [done|]. unfold assemble.
  erewrite bind_Ok; [|unfold lift; by rewrite Ht]. cbv beta iota.
  erewrite bind_Ok by done. cbv beta iota.
  erewrite bind_Raise; [done|]. unfold build_jobs. by rewrite Hr, Hcmd.
Qed.

Lemma submit_raw_with_command_witness :
  ∃ w', submit (Sample.env [] [] "{}") [Sample.c1]
          {[ "raw" := JBool true; "command" := JList [JStr "ls"];
             "command-prefix" := JStr "" ]} Sample.start
        = (Raise (Exception
             "You cannot specify a command at the command line when using --raw/-r."),
           w')
        ∧ sent w' = sent Sample.start ∧ printed w' = printed Sample.start.
Proof.
  apply submit_raw_with_command.
  - discriminate.
  - eexists. vm_compute. reflexivity.
  - vm_compute. reflexivity.
  - vm_compute. reflexivity.
Defined.

(** X11. Outside raw mode, with no token on the command line and no line
    on standard input, the invocation ends with the exception that asks for
    a command, and no request is made. *)
Theorem submit_no_command (E : Env) clusters args w :
  clusters ≠ [] →
  is_Some (args !! "command-prefix") →
  truthy (dict_get "raw" args) = false →
  truthy (dict_get "command" args) = false →
  read_lines E = [] →
  ∃ w', submit E clusters args w
        = (Raise (Exception "You must specify at least one command."), w')
        ∧ sent w' = sent w.
Proof.
  intros Hc [prefix Hp] Hr Hcmd Hl.
  destruct (assemble_build_raises E args prefix
              (Exception "You must specify at least one command.") Hp)
    with (w := w) as (w' & Ha).
  { intros jt w0 _. unfold build_jobs. rewrite Hr.
    erewrite bind_Ok; [|unfold lift, as_tokens; by rewrite Hcmd].
    eexists. erewrite bind_Raise; [done|].
    unfold acquire_commands, read_commands_from_stdin.
    erewrite bind_Ok by reflexivity. by rewrite Hl. }
  exists w'. by apply submit_assembly_raises.
Qed.

Lemma submit_no_command_witness :
  ∃ w', submit (Sample.env [] [] "") [Sample.c1]
          {[ "command" := JList []; "command-prefix" := JStr "" ]} Sample.start
        = (Raise (Exception "You must specify at least one command."), w')
        ∧ sent w' = sent Sample.start.
Proof.
  apply submit_no_command.
  - discriminate.
  - eexists. vm_compute. reflexivity.
  - vm_compute. reflexivity.
  - vm_compute. reflexivity.
  - reflexivity.
Defined.

(** X12. Outside raw mode, with tokens on the command line, an entry of
    the environment without [=] makes the invocation end with
    [ValueError]; no request is made. *)
Theorem submit_malformed_env (E : Env) clusters args w t ts es e :
  clusters ≠ [] →
  is_Some (args !! "command-prefix") →
  truthy (dict_get "raw" args) = false →
  dict_get "command" args = JList (JStr <$> t :: ts) →
  dict_get "env" args = JList (JStr <$> es) →
  e ∈ es → free_of "=" e →
  ∃ msg w', submit E clusters args w = (Raise (ValueError msg), w')
            ∧ sent w' = sent w.
Proof.
  intros Hc [prefix Hp] Hr Hcmd Henv He Hfree.
  destruct (env_dict_malformed es e He Hfree) as [msg Hmsg].
  destruct (take_options_template E args prefix Hp)
    as (jt0 & Ht & _ & _ & _ & _ & _ & _ & Hk0).
  destruct (resolve_group_run E jt0 w) as (g & jt & w1 & Hg & Hs & _ & _ & Hk & _).
  assert (dict_get "env" jt = JList (JStr <$> es)) as Hje.
  { unfold dict_get in *. by rewrite Hk, Hk0. }
  exists msg, w1. apply submit_assembly_raises; [done|]. unfold assemble.
  erewrite bind_Ok; [|unfold lift; by rewrite Ht]. cbv beta iota.
  erewrite bind_Ok by done. cbv beta iota.
  erewrite bind_Raise; [done|]. unfold build_jobs. rewrite Hr, Hcmd.
  erewrite bind_Ok; [|unfold lift; by rewrite as_tokens_strings].
  erewrite bind_Ok by apply acquire_commands_tokens.
  change (1 <? length [command_of_tokens t ts])%nat with false.
  rewrite andb_false_r, Hje.
  destruct es as [|e0 es']; [by apply elem_of_nil in He|].
  cbn [truthy fmap list_fmap].
  erewrite bind_Raise; [done|]. erewrite bind_Raise; [done|].
  unfold lift. by rewrite <-Hmsg.
Qed.

Lemma submit_malformed_env_witness :
  ∃ msg w', submit (Sample.env [] [] "") [Sample.c1]
              {[ "command" := JList [JStr "ls"]; "command-prefix" := JStr "";
                 "env" := JList [JStr "A=1"; JStr "B"] ]} Sample.start
            = (Raise (ValueError msg), w')
            ∧ sent w' = sent Sample.start.
Proof.
  apply (submit_malformed_env _ _ _ _ "ls" [] ["A=1"; "B"] "B").
  - discriminate.
  - eexists. vm_compute. reflexivity.
  - vm_compute. reflexivity.
  - vm_compute. reflexivity.
  - vm_compute. reflexivity.
  - apply elem_of_cons. right. apply elem_of_cons. by left.
  - repeat constructor; discriminate.
Defined.

(** ** The environment of the jobs *)

Section Environment.

Lemma mapM_env_pair (kvs : list (string * string)) :
  Forall (λ kv, free_of "=" kv.1) kvs →
  mapM env_pair (env_entry <$> kvs) = Ok (prod_map id JStr <$> kvs).
Proof.
  induction kvs as [|[k v] kvs IH]; [done|].
  intros [Hk Hkvs]%Forall_cons. rewrite !fmap_cons.
  change (mapM env_pair (env_entry (k, v) :: (env_entry <$> kvs)))
    with (env_pair (env_entry (k, v))
          ≫= λ y, mapM env_pair (env_entry <$> kvs) ≫= λ ks, mret (y :: ks)).
  rewrite IH by done. unfold env_pair, env_entry. cbn [fst snd].
  by rewrite PyStrMore.split_once_app by done.
Qed.

Lemma keys_prod_map (kvs : list (string * string)) :
  (prod_map id JStr <$> kvs).*1 = kvs.*1.
Proof. induction kvs as [|[k v] kvs IH]; [done|]. cbn. by rewrite IH. Qed.

End Environment.

(** X13. A list of entries [KEY=VALUE] whose keys hold no [=] becomes a
    mapping in which a key has the value of the last entry for it; the
    value is everything behind the first [=], further [=] included. *)
Theorem env_dict_last_wins (kvs1 kvs2 : list (string * string)) k v :
  Forall (λ kv, free_of "=" kv.1) (kvs1 ++ (k, v) :: kvs2) →
  k ∉ kvs2.*1 →
  ∃ m, env_dict (JList (env_entry <$> kvs1 ++ (k, v) :: kvs2)) = Ok (JDict m)
       ∧ m !! k = Some (JStr v).
Proof.
  intros Hfree Hk. unfold env_dict. rewrite mapM_env_pair by done. cbn.
  eexists. split; [done|].
  rewrite fmap_app, fmap_cons, reverse_app, reverse_cons.
  rewrite list_to_map_app. apply lookup_union_Some_l.
  rewrite list_to_map_app, lookup_union_r.
  - cbn. by rewrite lookup_insert_eq.
  - apply not_elem_of_list_to_map_1.
    rewrite <-fmap_reverse, keys_prod_map, fmap_reverse.
    by rewrite elem_of_reverse.
Qed.

Lemma env_dict_last_wins_witness :
  ∃ m, env_dict (JList (env_entry <$> [("A", "1"); ("B", "x")]
                                      ++ ("A", "2=3") :: [("C", "")]))
       = Ok (JDict m)
       ∧ m !! "A" = Some (JStr "2=3").
Proof.
  apply env_dict_last_wins.
  - repeat constructor; discriminate.
  - apply not_elem_of_cons. split; [discriminate|apply not_elem_of_nil].
Defined.

(** ** The group, the commands and the jobs *)

Section Jobs.
Context (E : Env).

Lemma acquire_commands_resolved tokens w commands w' :
  acquire_commands E tokens w = (Ok commands, w') →
  commands = resolved_commands E tokens ∧ commands ≠ []
  ∧ sent w' = sent w ∧ drawn w' = drawn w.
Proof.
  assert (∀ w0, read_commands_from_stdin E w0 = (Ok commands, w') →
                commands = read_lines E ∧ commands ≠ []
                ∧ sent w' = sent w0 ∧ drawn w' = drawn w0) as Hstdin.
  { intros w0 (? & w1 & Hp & H)%bind_inv_Ok. cbv zeta in H.
    injection Hp as _ <-.
    destruct (Nat.ltb_spec (length (read_lines E)) 1) as [|Hlen]; [done|].
    injection H as <- <-. split_and!; try done.
    intros Hnil. rewrite Hnil in Hlen. cbn in Hlen. lia. }
  destruct tokens as [[|t ts]|]; cbn [resolved_commands].
  - apply Hstdin.
  - rewrite acquire_commands_tokens. by intros [= <- <-].
  - apply Hstdin.
Qed.

Lemma build_jobs_resolved raw cmd jt w jobs w' :
  truthy raw = false →
  build_jobs E raw cmd jt w = (Ok jobs, w') →
  ∃ tokens jt2,
    as_tokens cmd = Ok tokens
    ∧ jobs = (λ c, deep_merge (JDict jt2) (JDict {[ "command" := JStr c ]}))
             <$> resolved_commands E tokens
    ∧ resolved_commands E tokens ≠ []
    ∧ (∀ k, k ≠ "env" → jt2 !! k = jt !! k).
Proof.
  intros Hr. unfold build_jobs. rewrite Hr.
  intros (tokens & w1 & Ht & H)%bind_inv_Ok.
  apply bind_inv_Ok in H as (commands & w2 & Ha & H).
  destruct (truthy (dict_get "uuid" jt) && (1 <? length commands)%nat); [done|].
  apply bind_inv_Ok in H as (jt2 & w3 & He & H). injection H as <- <-.
  apply acquire_commands_resolved in Ha as (-> & Hne & _).
  unfold lift in Ht. injection Ht as Ht _.
  exists tokens, jt2. split_and!; try done.
  intros k Hk. destruct (truthy (dict_get "env" jt)).
  - apply bind_inv_Ok in He as (env & w4 & _ & He). injection He as <- _.
    by rewrite lookup_insert_ne.
  - by injection He as <- _.
Qed.

(** A job that has a command gets through the loop over the jobs. *)
Lemma finish_job_ok prefix (d : gmap string json) c w :
  d !! "command" = Some c →
  ∃ d' w', finish_job E prefix (JDict d) w = (Ok (JDict d'), w')
           ∧ sent w' = sent w ∧ printed w' = printed w.
Proof.
  intros Hc. unfold finish_job.
  set (first := if truthy (dict_get "uuid" d) then mret d
                else fresh_uuid E ≫= λ u, mret (<["uuid" := JStr u]> d)).
  assert (∃ d1 w1, first w = (Ok d1, w1) ∧ d1 !! "command" = Some c
                   ∧ sent w1 = sent w ∧ printed w1 = printed w)
    as (d1 & w1 & H1 & Hc1 & Hs1 & Hp1).
  { subst first. destruct (truthy (dict_get "uuid" d)).
    - by exists d, w.
    - do 2 eexists. split; [reflexivity|]. split_and!; try done.
      by rewrite lookup_insert_ne. }
  erewrite bind_Ok by exact H1. cbv zeta.
  set (d2 := if truthy (dict_get "name" d1) then d1
             else <["name" := JStr (current_user E +:+ "_job")]> d1).
  assert (d2 !! "command" = Some c) as Hc2.
  { subst d2. destruct (truthy (dict_get "name" d1)); [done|].
    by rewrite lookup_insert_ne. }
  destruct (truthy prefix).
  - erewrite bind_Ok; [|erewrite bind_Ok; [reflexivity|]].
    + by do 2 eexists.
    + unfold lift, py_getitem. by rewrite Hc2.
  - erewrite bind_Ok by reflexivity. by do 2 eexists.
Qed.

End Jobs.

(** X14. Whatever the mode, a batch has a group exactly when the
    configuration has a group name.  The group carries that name and the
    identifier of the configuration, or the next identifier of the generator
    when the configuration has none; and the requests then have the group
    in their [groups] attribute, which is left out when there is no
    group. *)
Theorem assemble_group (E : Env) args w jobs group w' :
  assemble E args w = (Ok (jobs, group), w') →
  match args !! "group-name" with
  | None =>
      group = JNull
      ∧ request_body jobs group = JDict {[ "jobs" := JList jobs ]}
  | Some name =>
      group = JDict {[ "name" := name;
                       "uuid" := default (JStr (uuid4 E (drawn w)))
                                   (args !! "group") ]}
      ∧ request_body jobs group
        = JDict (<[ "groups" := JList [group] ]> {[ "jobs" := JList jobs ]})
  end.
Proof.
  intros (prefix & jt0 & jt & w1 & pre & w2 & Ht & Hp & Hg & _)%assemble_inv.
  destruct (take_options_template E args prefix Hp)
    as (jt0' & Ht' & _ & _ & _ & _ & _ & _ & Hk0).
  rewrite Ht in Ht'. injection Ht' as <-.
  destruct (resolve_group_run E jt0 w) as (g & jt' & w1' & Hg' & _ & _ & _ & _ & Hcase).
  rewrite Hg in Hg'. injection Hg' as <- <- <-.
  rewrite !Hk0 in Hcase by done.
  destruct (args !! "group-name") as [name|].
  - destruct Hcase as (v & -> & _ & Hv).
    assert (v = default (JStr (uuid4 E (drawn w))) (args !! "group")) as ->.
    { destruct (args !! "group"); [by destruct Hv|done]. }
    split; [done|]. unfold request_body. cbn [truthy].
    by rewrite bool_decide_eq_false_2 by apply insert_non_empty.
  - by destruct Hcase as (-> & _).
Qed.

Lemma assemble_group_witness :
  let E := Sample.env [] [] "" in
  let args : gmap string json :=
    {[ "command" := JList [JStr "ls"]; "command-prefix" := JStr "";
       "group-name" := JStr "nightly" ]} in
  ∃ jobs group w',
    assemble E args Sample.start = (Ok (jobs, group), w')
    ∧ match args !! "group-name" with
      | None =>
          group = JNull
          ∧ request_body jobs group = JDict {[ "jobs" := JList jobs ]}
      | Some name =>
          group = JDict {[ "name" := name;
                           "uuid" := default (JStr (uuid4 E (drawn Sample.start)))
                                       (args !! "group") ]}
          ∧ request_body jobs group
            = JDict (<[ "groups" := JList [group] ]> {[ "jobs" := JList jobs ]})
      end.
Proof.
  intros E args.
  destruct (assemble E args Sample.start) as [[[jobs group]|e] w'] eqn:Ha;
    [|by vm_compute in Ha].
  exists jobs, group, w'. split; [reflexivity|].
  exact (assemble_group E args Sample.start jobs group w' Ha).
Defined.

(** X15. Outside raw mode, a batch that has been assembled has one job for
    each resolved command, in the order of the commands: the one command of
    the tokens, or the lines read.  The command of a job is the configured
    prefix followed by its command, its [application] attribute holds the
    name and the version of the configuration or the defaults, and the
    options that are no job attributes are not in it. *)
Theorem assemble_commands (E : Env) args w jobs group w' :
  truthy (dict_get "raw" args) = false →
  assemble E args w = (Ok (jobs, group), w') →
  ∃ prefix tokens,
    args !! "command-prefix" = Some prefix
    ∧ as_tokens (dict_get "command" args) = Ok tokens
    ∧ length jobs = length (resolved_commands E tokens)
    ∧ jobs ≠ []
    ∧ ∀ i c, resolved_commands E tokens !! i = Some c →
        ∃ d, jobs !! i = Some (JDict d)
          ∧ d !! "command" = Some (JStr (prefix_text E prefix +:+ c))
          ∧ d !! "application" = Some (application_of E args)
          ∧ d !! "raw" = None ∧ d !! "command-prefix" = None
          ∧ d !! "application-name" = None
          ∧ d !! "application-version" = None
          ∧ d !! "group-name" = None.
Proof.
  intros Hraw
    (prefix & jt0 & jt & w1 & pre & w2 & Ht & Hp & Hg & Hb & Hm)%assemble_inv.
  destruct (take_options_template E args prefix Hp)
    as (jt0' & Ht' & Happ & Hr0 & _ & Hp0 & Han & Hav & _).
  rewrite Ht in Ht'. injection Ht' as <-.
  destruct (resolve_group_run E jt0 w)
    as (g & jt' & w1' & Hg' & _ & _ & Hgn & Hk & _).
  rewrite Hg in Hg'. injection Hg' as <- <- <-.
  apply build_jobs_resolved in Hb as (tokens & jt2 & Htok & -> & Hne & Hk2);
    [|done].
  apply mapM_finish_job_inv in Hm as (Hl & _ & Hi).
  rewrite length_fmap in Hl.
  exists prefix, tokens. split_and!; try done.
  - intros ->. destruct (resolved_commands E tokens); done.
  - intros i c Hc.
    destruct (command_job jt2 c) as (d & Hd & Hdc & Hdk).
    destruct (Hi i (JDict d)) as (d0 & d' & [= <-] & Hj & Hf).
    { by rewrite list_lookup_fmap, Hc, <-Hd. }
    destruct Hf as (_ & _ & Hcmd & Hother).
    assert (∀ k, k ≠ "uuid" → k ≠ "name" → k ≠ "command" → k ≠ "env" →
                 k ≠ "group" → k ≠ "group-name" → d' !! k = jt0 !! k) as Hkeep.
    { intros k ??????. by rewrite Hother, Hdk, Hk2, Hk. }
    exists d'. split_and!; try done.
    + unfold prefix_text. destruct (truthy prefix).
      * destruct Hcmd as (c0 & Hc0 & ->). rewrite Hdc in Hc0.
        by injection Hc0 as <-.
      * by rewrite Hcmd, Hdc.
    + by rewrite Hkeep.
    + by rewrite Hkeep.
    + by rewrite Hkeep.
    + by rewrite Hkeep.
    + by rewrite Hkeep.
    + by rewrite Hother, Hdk, Hk2.
Qed.

Lemma assemble_commands_witness :
  let E := Sample.env [] ["echo a"; "echo b"] "" in
  let args : gmap string json :=
    {[ "command-prefix" := JStr "time "; "application-name" := JStr "nightly" ]} in
  ∃ jobs group w',
    assemble E args Sample.start = (Ok (jobs, group), w')
    ∧ ∃ prefix tokens,
        args !! "command-prefix" = Some prefix
        ∧ as_tokens (dict_get "command" args) = Ok tokens
        ∧ length jobs = length (resolved_commands E tokens)
        ∧ jobs ≠ []
        ∧ ∀ i c, resolved_commands E tokens !! i = Some c →
            ∃ d, jobs !! i = Some (JDict d)
              ∧ d !! "command" = Some (JStr (prefix_text E prefix +:+ c))
              ∧ d !! "application" = Some (application_of E args)
              ∧ d !! "raw" = None ∧ d !! "command-prefix" = None
              ∧ d !! "application-name" = None
              ∧ d !! "application-version" = None
              ∧ d !! "group-name" = None.
Proof.
  intros E args.
  destruct (assemble E args Sample.start) as [[[jobs group]|e] w'] eqn:Ha;
    [|by vm_compute in Ha].
  exists jobs, group, w'. split; [reflexivity|].
  apply (assemble_commands E args Sample.start jobs group w');
    [vm_compute; reflexivity|exact Ha].
Defined.

(** X16. Outside raw mode, with tokens on the command line and no
    environment, assembly cannot fail: it gives exactly one job, whose
    command is the prefix followed by the command of the tokens, without
    reading standard input, printing or sending anything; and the
    invocation is the federated submission of that one job. *)
Theorem submit_explicit (E : Env) clusters args w prefix t ts :
  clusters ≠ [] →
  args !! "command-prefix" = Some prefix →
  truthy (dict_get "raw" args) = false →
  dict_get "command" args = JList (JStr <$> t :: ts) →
  truthy (dict_get "env" args) = false →
  ∃ d group w1,
    assemble E args w = (Ok ([JDict d], group), w1)
    ∧ sent w1 = sent w ∧ printed w1 = printed w
    ∧ d !! "command"
      = Some (JStr (prefix_text E prefix +:+ command_of_tokens t ts))
    ∧ submit E clusters args w
      = submit_federated E clusters [JDict d] group w1.
Proof.
  intros Hc Hp Hr Hcmd Henv.
  destruct (take_options_template E args prefix Hp)
    as (jt0 & Ht & _ & _ & _ & _ & _ & _ & Hk0).
  destruct (resolve_group_run E jt0 w)
    as (g & jt & w1 & Hg & Hs1 & Hp1 & _ & Hk & _).
  assert (dict_get "env" jt = dict_get "env" args) as Hje.
  { unfold dict_get. by rewrite Hk, Hk0. }
  destruct (command_job jt (command_of_tokens t ts)) as (d0 & Hd0 & Hdc & _).
  assert (build_jobs E (dict_get "raw" args) (dict_get "command" args) jt w1
          = (Ok [JDict d0], w1)) as Hb.
  { unfold build_jobs. rewrite Hr, Hcmd.
    erewrite bind_Ok; [|unfold lift; by rewrite as_tokens_strings].
    erewrite bind_Ok by apply acquire_commands_tokens.
    change (1 <? length [command_of_tokens t ts])%nat with false.
    rewrite andb_false_r, Hje, Henv.
    erewrite bind_Ok by reflexivity. cbn [fmap list_fmap]. by rewrite Hd0. }
  destruct (finish_job_ok E prefix d0 _ w1 Hdc) as (d & w2 & Hf & Hs2 & Hp2).
  assert (mapM (finish_job E prefix) [JDict d0] w1 = (Ok [JDict d], w2)) as Hm.
  { cbn [mapM]. erewrite bind_Ok by exact Hf. by erewrite bind_Ok by reflexivity. }
  pose proof (assemble_run E args _ _ _ _ w _ _ _ _ _ _ _ Ht Hg Hb Hm) as Ha.
  cbv beta iota in Ha.
  exists d, g, w2. split_and!.
  - done.
  - congruence.
  - congruence.
  - apply finish_job_inv in Hf as (d1 & d1' & [= <-] & [= <-] & Hfin & _).
    destruct Hfin as (_ & _ & Hcm & _). unfold prefix_text.
    destruct (truthy prefix).
    + destruct Hcm as (c0 & Hc0 & ->). rewrite Hdc in Hc0.
      by injection Hc0 as <-.
    + by rewrite Hcm, Hdc.
  - by apply submit_run.
Qed.

Lemma submit_explicit_witness :
  ∃ d group w1,
    assemble (Sample.env [] [] "")
      {[ "command" := JList (JStr <$> "--" :: ["echo"; "a b"]);
         "command-prefix" := JStr "time " ]} Sample.start
    = (Ok ([JDict d], group), w1)
    ∧ sent w1 = sent Sample.start ∧ printed w1 = printed Sample.start
    ∧ d !! "command"
      = Some (JStr (prefix_text (Sample.env [] [] "") (JStr "time ")
                    +:+ command_of_tokens "--" ["echo"; "a b"]))
    ∧ submit (Sample.env [] [] "") [Sample.c1]
        {[ "command" := JList (JStr <$> "--" :: ["echo"; "a b"]);
           "command-prefix" := JStr "time " ]} Sample.start
      = submit_federated (Sample.env [] [] "") [Sample.c1] [JDict d] group w1.
Proof.
  apply submit_explicit.
  - discriminate.
  - vm_compute. reflexivity.
  - vm_compute. reflexivity.
  - vm_compute. reflexivity.
  - vm_compute. reflexivity.
Defined.

(** X17. The loop over the jobs fails on a job that is a mapping only in
    one way: [KeyError] for [command], exactly when a prefix is configured
    and the job has no command.  In raw mode this is what a raw job without
    a command runs into. *)
Theorem finish_job_outcome (E : Env) prefix (d : gmap string json) w :
  match (finish_job E prefix (JDict d) w).1 with
  | Ok job' =>
      is_dict job' = true
      ∧ (truthy prefix = false ∨ is_Some (d !! "command"))
  | Raise e =>
      e = KeyError "command" ∧ truthy prefix = true ∧ d !! "command" = None
  end.
Proof.
  destruct (d !! "command") as [c|] eqn:Hc.
  - destruct (finish_job_ok E prefix d c w Hc) as (d' & w' & -> & _).
    cbn. split; [done|]. by right.
  - destruct (finish_job E prefix (JDict d) w) as [[job'|e] w'] eqn:Hf; cbn.
    + apply finish_job_inv in Hf as (d0 & d' & [= <-] & -> & Hfin & _).
      split; [done|]. destruct Hfin as (_ & _ & Hcm & _).
      destruct (truthy prefix); [|by left].
      destruct Hcm as (c & Hc' & _). congruence.
    + unfold finish_job in Hf.
      destruct (truthy prefix) eqn:Hp.
      * unfold mbind, M_bind, mret, M_ret, fresh_uuid, lift, py_getitem in Hf.
        destruct (truthy (dict_get "uuid" d));
          destruct (truthy (dict_get "name" _)) in Hf;
          rewrite ?lookup_insert_ne, Hc in Hf by done;
          by injection Hf as <- _.
      * unfold mbind, M_bind, mret, M_ret, fresh_uuid in Hf.
        by destruct (truthy (dict_get "uuid" d)).
Qed.

(** X18. When command resolution succeeds, there is at least one command;
    tokens on the command line give exactly one, and none gives the lines
    read, as they are.  No request is made and no identifier drawn. *)
Theorem acquire_commands_result (E : Env) tokens w commands w' :
  acquire_commands E tokens w = (Ok commands, w') →
  commands = resolved_commands E tokens
  ∧ (0 < length commands)%nat
  ∧ sent w' = sent w ∧ drawn w' = drawn w.
Proof.
  intros (-> & Hne & Hs & Hd)%acquire_commands_resolved.
  split_and!; try done.
  destruct (resolved_commands E tokens); [done|cbn; lia].
Qed.

Lemma acquire_commands_result_witness :
  ∃ w', [" ls -l "; ""] = resolved_commands
                            (Sample.env [] [" ls -l "; ""] "") (Some [])
        ∧ (0 < length [" ls -l "; ""])%nat
        ∧ sent w' = sent Sample.start ∧ drawn w' = drawn Sample.start.
Proof.
  eexists.
  eapply (acquire_commands_result (Sample.env [] [" ls -l "; ""] "")
            (Some []) Sample.start).
  vm_compute. reflexivity.
Defined.

(** X19. In raw mode a payload that is the empty list gives an empty
    batch, which is submitted all the same: nothing asks for at least one
    job. *)
Theorem submit_raw_empty_list (E : Env) clusters args w :
  clusters ≠ [] →
  is_Some (args !! "command-prefix") →
  truthy (dict_get "raw" args) = true →
  truthy (dict_get "command" args) = false →
  json_loads E (stdin_read E) = Some (JList []) →
  ∃ group w1,
    assemble E args w = (Ok ([], group), w1)
    ∧ sent w1 = sent w
    ∧ submit E clusters args w = submit_federated E clusters [] group w1.
Proof.
  intros Hc [prefix Hp] Hr Hcmd Hl.
  destruct (take_options_template E args prefix Hp) as (jt0 & Ht & _).
  destruct (resolve_group_run E jt0 w) as (g & jt & w1 & Hg & Hs1 & _).
  destruct (build_jobs E (dict_get "raw" args) (dict_get "command" args) jt w1)
    as [r w2] eqn:Hb.
  assert (r = Ok [] ∧ sent w2 = sent w1) as [-> Hs2].
  { unfold build_jobs in Hb. rewrite Hr, Hcmd in Hb.
    unfold read_jobs_from_stdin, print_stderr, lift, mbind, M_bind, mret,
      M_ret, parse_raw_job_spec in Hb.
    rewrite Hl in Hb. cbn in Hb. by injection Hb as <- <-. }
  assert (mapM (finish_job E prefix) [] w2 = (Ok [], w2)) as Hm by done.
  pose proof (assemble_run E args _ _ _ _ w _ _ _ _ _ _ _ Ht Hg Hb Hm) as Ha.
  cbv beta iota in Ha.
  exists g, w2. split_and!; [done|congruence|by apply submit_run].
Qed.

Lemma submit_raw_empty_list_witness :
  ∃ group w1,
    assemble (Sample.env [] [] "[]")
      {[ "raw" := JBool true; "command-prefix" := JStr "" ]} Sample.start
    = (Ok ([], group), w1)
    ∧ sent w1 = sent Sample.start
    ∧ submit (Sample.env [] [] "[]") [Sample.c1]
        {[ "raw" := JBool true; "command-prefix" := JStr "" ]} Sample.start
      = submit_federated (Sample.env [] [] "[]") [Sample.c1] [] group w1.
Proof.
  apply submit_raw_empty_list.
  - discriminate.
  - eexists. vm_compute. reflexivity.
  - vm_compute. reflexivity.
  - vm_compute. reflexivity.
  - vm_compute. reflexivity.
Defined.

(** ** What a returned code says about the transport *)

Section Sound.
Context (E : Env) (jobs : list json) (group : json).

Lemma attempt_inv c w r w' :
  attempt E jobs group c w = (r, w') →
  sent w' = sent w ++ [request_for jobs group c]
  ∧ match http_post E (sent w) (request_for jobs group c) with
    | Responded resp =>
        if decide (status_code resp = 201) then r = Ok (Some 0)
        else r = Ok None ∨ r = Raise TypeError
    | TimedOut => r = Ok (Some 1)
    | Unreachable => r = Ok None
    end.
Proof.
  intros Ha.
  destruct (http_post E (sent w) (request_for jobs group c)) as [resp| |] eqn:H.
  - case_decide as Hs.
    + destruct (attempt_created E jobs group c w resp H Hs) as (w1 & Ha1 & Hs1 & _).
      rewrite Ha in Ha1. by injection Ha1 as -> ->.
    + destruct (failure_reason E resp) as [reason|e] eqn:Hf.
      * destruct (attempt_rejected E jobs group c w resp reason H Hs Hf)
          as (w1 & Ha1 & Hs1 & _).
        rewrite Ha in Ha1. injection Ha1 as -> ->. split; [done|by left].
      * destruct (attempt_crashes E jobs group c w resp e H Hs Hf)
          as (w1 & Ha1 & Hs1).
        rewrite Ha in Ha1. injection Ha1 as -> ->. split; [done|by right].
  - destruct (attempt_timed_out E jobs group c w H) as (w1 & Ha1 & Hs1 & _).
    rewrite Ha in Ha1. by injection Ha1 as -> ->.
  - destruct (attempt_unreachable E jobs group c w H) as (w1 & Ha1 & Hs1 & _).
    rewrite Ha in Ha1. by injection Ha1 as -> ->.
Qed.

Lemma federated_loop_returns clusters w code w' :
  federated_loop E jobs group clusters w = (Ok (Some code), w') →
  ∃ before c after,
    clusters = before ++ c :: after
    ∧ sent w' = sent w ++ (request_for jobs group <$> before ++ [c])
    ∧ match outcome_at E jobs group w before c with
      | Responded resp => code = 0 ∧ status_code resp = 201
      | TimedOut => code = 1
      | Unreachable => False
      end.
Proof.
  revert w. induction clusters as [|c clusters IH]; intros w; [done|].
  cbn [federated_loop]. unfold mbind, M_bind at 1.
  destruct (attempt E jobs group c w) as [r w1] eqn:Ha.
  apply attempt_inv in Ha as [Hs Hcase].
  destruct r as [[code'|]|e]; [| |done].
  - intros [= -> ->]. exists [], c, clusters. split_and!; [done..|].
    unfold outcome_at. cbn. rewrite app_nil_r.
    destruct (http_post E (sent w) (request_for jobs group c)) as [resp| |];
      [|by injection Hcase as <-|done].
    case_decide; [by injection Hcase as <-|by destruct Hcase].
  - intros (before & c' & after & -> & Hs' & Hc')%IH.
    exists (c :: before), c', after. split_and!; [done| |].
    + rewrite Hs', Hs. cbn. by rewrite <-app_assoc.
    + unfold outcome_at in *. cbn. by rewrite Hs, <-app_assoc in Hc'.
Qed.

End Sound.

(** X20. [submit_federated] returns a code only for what the transport
    did at the last cluster asked: 0 only when that cluster answered 201,
    and 1 only when the request to it timed out.  The requests made are
    those for the clusters up to that one. *)
Theorem submit_federated_returns (E : Env) clusters jobs group w code w' :
  submit_federated E clusters jobs group w = (Ok code, w') →
  ∃ before c after,
    clusters = before ++ c :: after
    ∧ sent w' = sent w ++ (request_for jobs group <$> before ++ [c])
    ∧ match outcome_at E jobs group w before c with
      | Responded resp => code = 0 ∧ status_code resp = 201
      | TimedOut => code = 1
      | Unreachable => False
      end.
Proof.
  unfold submit_federated. intros (r & w1 & Hl & H)%bind_inv_Ok.
  destruct r as [code'|]; [|done]. injection H as -> ->.
  by apply federated_loop_returns.
Qed.

Lemma submit_federated_returns_witness :
  let E := Sample.env
             [Responded {| status_code := 503; text := "busy";
                           json_body := None |};
              Responded {| status_code := 201; text := Sample.u1;
                           json_body := None |}] [] "" in
  ∃ w' before c after,
    submit_federated E [Sample.c1; Sample.c2; Sample.c3] [] JNull Sample.start
    = (Ok 0, w')
    ∧ [Sample.c1; Sample.c2; Sample.c3] = before ++ c :: after
    ∧ sent w' = sent Sample.start ++ (request_for [] JNull <$> before ++ [c])
    ∧ match outcome_at E [] JNull Sample.start before c with
      | Responded resp => 0 = 0 ∧ status_code resp = 201
      | TimedOut => 0 = 1
      | Unreachable => False
      end.
Proof.
  intros E.
  destruct (submit_federated E [Sample.c1; Sample.c2; Sample.c3] [] JNull
              Sample.start) as [r w'] eqn:Hrun.
  assert (r = Ok 0) as -> by (by vm_compute in Hrun; injection Hrun as <- _).
  destruct (submit_federated_returns E _ _ _ _ _ _ Hrun)
    as (before & c & after & H1 & H2 & H3).
  by exists w', before, c, after.
Defined.

(** ** Raw mode *)

Section Raw.
Context (E : Env).

(** In raw mode [build_jobs] prompts, reads standard input and hands what
    it read to [parse_raw_job_spec], with the template. *)
Lemma build_jobs_raw raw cmd jt w :
  truthy raw = true → truthy cmd = false →
  ∃ w1, build_jobs E raw cmd jt w
        = (parse_raw_job_spec E (JDict jt) (stdin_read E), w1)
        ∧ sent w1 = sent w.
Proof.
  intros Hr Hc. unfold build_jobs. rewrite Hr, Hc.
  unfold read_jobs_from_stdin, print_stderr, lift, mbind, M_bind, mret, M_ret.
  cbn. by eexists.
Qed.

Lemma assemble_raw_batch args raw cmd prefix jt0 w g jt w0 jobs w1 :
  take_options E args = Ok (raw, cmd, prefix, jt0) →
  resolve_group E jt0 w = (Ok (g, jt), w0) →
  build_jobs E raw cmd jt w0 = (Ok jobs, w1) →
  assemble E args w = finished_batch E prefix g jobs w1.
Proof.
  intros Ht Hg Hb. unfold finished_batch.
  destruct (mapM (finish_job E prefix) jobs w1) as [r w2] eqn:Hm.
  by eapply assemble_run.
Qed.

Lemma submit_of_assemble clusters args w :
  clusters ≠ [] →
  submit E clusters args w
  = match assemble E args w with
    | (Ok (jobs, g), w1) => submit_federated E clusters jobs g w1
    | (Raise e, w1) => (Raise e, w1)
    end.
Proof.
  intros Hc. destruct (assemble E args w) as [[[jobs g]|e] w1] eqn:Ha.
  - by apply submit_run.
  - by apply submit_assembly_raises.
Qed.

End Raw.

(** C7. In raw mode the invocation takes the options out of the
    configuration, resolves the group, and reads standard input, which it
    hands to [json.loads].  The template is the configuration without the
    options that are no job attributes, with the [application] attribute.
    When the payload parses as a mapping there is exactly one job, the
    mapping merged over that template; when it parses as a list there is
    one job for each element, the element merged over the template, in the
    order of the list.  These jobs then go through the loop over the jobs
    and are submitted.  Any other payload, and one that does not parse,
    ends the invocation with the validation failure, and no request has
    been made. *)
Theorem parse_raw_job_spec_shapes (E : Env) clusters args w prefix :
  clusters ≠ [] →
  args !! "command-prefix" = Some prefix →
  truthy (dict_get "raw" args) = true →
  truthy (dict_get "command" args) = false →
  ∃ (options_out template : gmap string json) (group : json) (w0 w1 : World),
    take_options E args
    = Ok (dict_get "raw" args, dict_get "command" args, prefix, options_out)
    ∧ resolve_group E options_out w = (Ok (group, template), w0)
    ∧ template !! "application" = Some (application_of E args)
    ∧ template !! "raw" = None ∧ template !! "command" = None
    ∧ template !! "command-prefix" = None
    ∧ template !! "application-name" = None
    ∧ template !! "application-version" = None
    ∧ template !! "group-name" = None
    ∧ (∀ k, k ≠ "raw" → k ≠ "command" → k ≠ "command-prefix" →
            k ≠ "application-name" → k ≠ "application-version" →
            k ≠ "application" → k ≠ "group" → k ≠ "group-name" →
            template !! k = args !! k)
    ∧ sent w1 = sent w
    ∧ let raw_batch (jobs : list json) :=
        parse_raw_job_spec E (JDict template) (stdin_read E) = Ok jobs
        ∧ build_jobs E (dict_get "raw" args) (dict_get "command" args)
            template w0
          = (Ok jobs, w1)
        ∧ assemble E args w = finished_batch E prefix group jobs w1
        ∧ submit E clusters args w
          = match finished_batch E prefix group jobs w1 with
            | (Ok (jobs', g), w2) => submit_federated E clusters jobs' g w2
            | (Raise e, w2) => (Raise e, w2)
            end in
      match json_loads E (stdin_read E) with
      | Some (JDict d) => raw_batch [deep_merge (JDict template) (JDict d)]
      | Some (JList l) =>
          raw_batch (deep_merge (JDict template) <$> l)
          ∧ length (deep_merge (JDict template) <$> l) = length l
      | _ =>
          parse_raw_job_spec E (JDict template) (stdin_read E)
          = Raise raw_job_error
          ∧ ∃ w', submit E clusters args w = (Raise raw_job_error, w')
                  ∧ sent w' = sent w
      end.
Proof.
  intros Hc Hp Hr Hcmd.
  destruct (take_options_template E args prefix Hp)
    as (jt0 & Ht & Happ & Hr0 & Hc0 & Hp0 & Han & Hav & Hk0).
  destruct (resolve_group_run E jt0 w)
    as (g & jt & w0 & Hg & Hs0 & _ & Hgn & Hk & _).
  destruct (build_jobs_raw E _ _ jt w0 Hr Hcmd) as (w1 & Hb & Hs1).
  exists jt0, jt, g, w0, w1. split_and!.
  - done.
  - done.
  - by rewrite Hk.
  - by rewrite Hk.
  - by rewrite Hk.
  - by rewrite Hk.
  - by rewrite Hk.
  - by rewrite Hk.
  - done.
  - intros k ????????. by rewrite Hk, Hk0.
  - congruence.
  - assert (∀ jobs,
              parse_raw_job_spec E (JDict jt) (stdin_read E) = Ok jobs →
              parse_raw_job_spec E (JDict jt) (stdin_read E) = Ok jobs
              ∧ build_jobs E (dict_get "raw" args) (dict_get "command" args) jt w0
                = (Ok jobs, w1)
              ∧ assemble E args w = finished_batch E prefix g jobs w1
              ∧ submit E clusters args w
                = match finished_batch E prefix g jobs w1 with
                  | (Ok (jobs', g'), w2) => submit_federated E clusters jobs' g' w2
                  | (Raise e, w2) => (Raise e, w2)
                  end) as Hbatch.
    { intros jobs Hparse. rewrite Hparse in Hb.
      pose proof (assemble_raw_batch E _ _ _ _ _ _ _ _ _ _ _ Ht Hg Hb) as Ha.
      split_and!; [done..|]. rewrite <-Ha. by apply submit_of_assemble. }
    pose proof (parse_raw_job_spec_cases E (JDict jt) (stdin_read E)) as Hparse.
    destruct (json_loads E (stdin_read E)) as [[]|] eqn:Hl; cbv zeta.
    all: try (split; [done|];
              destruct (assemble_build_raises E args prefix raw_job_error Hp)
                with (w := w) as (w' & Ha);
              [intros jt' w' _; apply build_jobs_raw_malformed; try done;
               by rewrite Hl
              |exists w'; by apply submit_assembly_raises]).
    + split; [by apply Hbatch|]. by rewrite length_fmap.
    + by apply Hbatch.
Qed.

(** C7, on the payload [{"cpus": 2}] with [mem] at 128 in the
    configuration, and on the payload [5], which is neither a mapping nor a
    list. *)
Lemma parse_raw_job_spec_shapes_witness :
  (∃ (template : gmap string json) (group : json) (w0 w1 : World),
     template !! "mem" = Some (JInt 128)
     ∧ build_jobs (SampleRaw.env []) (dict_get "raw" SampleRaw.args)
         (dict_get "command" SampleRaw.args) template w0
       = (Ok [deep_merge (JDict template) (JDict {[ "cpus" := JInt 2 ]})], w1)
     ∧ assemble (SampleRaw.env []) SampleRaw.args Sample.start
       = finished_batch (SampleRaw.env []) (JStr "") group
           [deep_merge (JDict template) (JDict {[ "cpus" := JInt 2 ]})] w1)
  ∧ (∃ w', submit (Sample.env [] [] "5") [Sample.c1]
             {[ "raw" := JBool true; "command-prefix" := JStr "" ]} Sample.start
           = (Raise raw_job_error, w')
           ∧ sent w' = sent Sample.start).
Proof.
  split.
  - destruct (parse_raw_job_spec_shapes (SampleRaw.env []) [Sample.c1]
                SampleRaw.args Sample.start (JStr ""))
      as (jt0 & template & group & w0 & w1
          & _ & _ & _ & _ & _ & _ & _ & _ & _ & Hk & _ & H).
    + discriminate.
    + vm_compute. reflexivity.
    + vm_compute. reflexivity.
    + vm_compute. reflexivity.
    + exists template, group, w0, w1. split; [by rewrite Hk|].
      change (json_loads (SampleRaw.env []) (stdin_read (SampleRaw.env [])))
        with (SampleRaw.loads SampleRaw.payload) in H.
      assert (SampleRaw.loads SampleRaw.payload
              = Some (JDict {[ "cpus" := JInt 2 ]})) as Hl
        by (vm_compute; reflexivity).
      rewrite Hl in H. cbv zeta in H.
      destruct H as (_ & Hb & Ha & _). by split.
  - destruct (parse_raw_job_spec_shapes (Sample.env [] [] "5") [Sample.c1]
                {[ "raw" := JBool true; "command-prefix" := JStr "" ]}
                Sample.start (JStr ""))
      as (jt0 & template & group & w0 & w1
          & _ & _ & _ & _ & _ & _ & _ & _ & _ & _ & _ & H).
    + discriminate.
    + vm_compute. reflexivity.
    + vm_compute. reflexivity.
    + vm_compute. reflexivity.
    + change (json_loads (Sample.env [] [] "5") (stdin_read (Sample.env [] [] "5")))
        with (Sample.loads "5") in H.
      assert (Sample.loads "5" = Some (JInt 5)) as Hl by (vm_compute; reflexivity).
      rewrite Hl in H. cbv zeta in H. by destruct H as [_ H].
Defined.

(** The example of section 8 through the invocation: the template has
    [mem] at 128, the payload is [{"cpus": 2}], and the one job that is
    posted has both, with the attributes that every job gets. *)
Example submit_raw_example :
  let E := SampleRaw.env
             [Responded {| status_code := 201; text := Sample.u1;
                           json_body := None |}] in
  let job : json :=
    JDict {[ "mem" := JInt 128; "cpus" := JInt 2;
             "application" := JDict {[ "name" := JStr "cook-scheduler-cli";
                                       "version" := JStr "1.0" ]};
             "uuid" := JStr "uuid-0"; "name" := JStr "alice_job" ]} in
  (submit E [Sample.c1] SampleRaw.args Sample.start).1 = Ok 0
  ∧ sent (submit E [Sample.c1] SampleRaw.args Sample.start).2
    = [request_for [job] JNull Sample.c1].
Proof. vm_compute. split; reflexivity. Qed.
